(** * The weekly newsletter script [newsletter.py]: a shallow embedding

    The script fetches articles from two sources (NewsAPI, Google News RSS),
    removes duplicate URLs among the NewsAPI articles, formats at most thirty
    articles into a text block, has a language model write a newsletter from
    it and mails the result.

    The embedding keeps the shape of the Python code:
    - JSON-shaped Python values are an inductive type [value]; a dict is an
      association list in insertion order (iterating a dict yields its keys
      in that order), its keys assumed distinct as in every Python dict;
    - a Python exception is a [Raise] result; code that can raise runs in the
      error monad [result];
    - calls that leave the process (HTTP, the clock, the model, the mail
      service, [print]) go through a [world] of oracles and are logged as
      [event]s by the writer monad [IO]. *)

From stdpp Require Import base list strings gmap pretty.

#[local] Set Warnings "-register-all".
#[local] Open Scope string_scope.
#[local] Open Scope list_scope.
#[local] Set Warnings "-clear-no-such-hyp".

(** ** Python values, exceptions and the built-ins the script uses *)

Module Py.

(** Values as [json.loads] builds them; floating-point numbers are left
    out (no article field the script inspects is one). *)
Inductive value :=
| VNone
| VBool (b : bool)
| VInt (z : Z)
| VStr (s : string)
| VList (l : list value)
| VDict (d : list (string * value)).

Inductive exn :=
| AttributeError
| TypeError
| KeyError (k : string)
| ExternalError (what : string).

Inductive result (A : Type) :=
| Ok (a : A)
| Raise (e : exn).
Arguments Ok {A} a.
Arguments Raise {A} e.

#[export] Instance result_ret : MRet result := @Ok.
#[export] Instance result_bind : MBind result := λ A B f m,
  match m with
  | Ok a => f a
  | Raise e => Raise e
  end.

Definition is_Ok {A} (r : result A) : Prop := ∃ a, r = Ok a.

#[export] Instance exn_eq_dec : EqDecision exn.
Proof. solve_decision. Defined.

#[export] Instance result_eq_dec `{EqDecision A} : EqDecision (result A).
Proof. solve_decision. Defined.

(** The double-quote character, for the quoted search phrase and the
    prompt text. *)
Definition dq : string := String (Ascii.ascii_of_nat 34) EmptyString.

(** The newline character. *)
Definition nl : string := String (Ascii.ascii_of_nat 10) EmptyString.

(** [d[k]] on the bindings of a dict. *)
Fixpoint lookup_key (k : string) (d : list (string * value)) : option value :=
  match d with
  | [] => None
  | (k', v) :: d' => if decide (k' = k) then Some v else lookup_key k d'
  end.

(** [bool(v)]: what [v or default] tests. *)
Definition truthy (v : value) : bool :=
  match v with
  | VNone => false
  | VBool b => b
  | VInt z => negb (Z.eqb z 0)
  | VStr s => negb (String.eqb s "")
  | VList l => match l with [] => false | _ => true end
  | VDict d => match d with [] => false | _ => true end
  end.

(** [v or dflt]. *)
Definition py_or (v dflt : value) : value :=
  if truthy v then v else dflt.

(** [obj.get(k, dflt)]: only a dict has a [get] method. *)
Definition get (obj : value) (k : string) (dflt : value) : result value :=
  match obj with
  | VDict d => Ok (default dflt (lookup_key k d))
  | _ => Raise AttributeError
  end.

(** [obj[k]] with a string [k]. *)
Definition getitem (obj : value) (k : string) : result value :=
  match obj with
  | VDict d =>
      match lookup_key k d with
      | Some v => Ok v
      | None => Raise (KeyError k)
      end
  | _ => Raise TypeError
  end.

(** [list(v)]: the elements [articles.extend(v)] appends. A string yields
    its characters, a dict its keys. *)
Definition py_iter (v : value) : result (list value) :=
  match v with
  | VList l => Ok l
  | VStr s =>
      Ok ((λ c, VStr (String c EmptyString)) <$> String.list_ascii_of_string s)
  | VDict d => Ok ((λ kv, VStr kv.1) <$> d)
  | VNone | VBool _ | VInt _ => Raise TypeError
  end.

(** Keys of a [set]: the hashable values up to Python's [==], under which
    [True == 1] and [False == 0]. *)
Inductive hkey :=
| HNone
| HInt (z : Z)
| HStr (s : string).

#[export] Instance hkey_eq_dec : EqDecision hkey.
Proof. solve_decision. Defined.

#[export] Instance hkey_countable : Countable hkey.
Proof.
  refine (inj_countable'
    (λ k, match k with
          | HNone => inl ()
          | HInt z => inr (inl z)
          | HStr s => inr (inr s)
          end)
    (λ x, match x with
          | inl () => HNone
          | inr (inl z) => HInt z
          | inr (inr s) => HStr s
          end) _).
  by intros [].
Defined.

(** [hash(v)]: lists and dicts are unhashable. *)
Definition py_hash (v : value) : result hkey :=
  match v with
  | VNone => Ok HNone
  | VBool b => Ok (HInt (if b then 1 else 0))
  | VInt z => Ok (HInt z)
  | VStr s => Ok (HStr s)
  | VList _ | VDict _ => Raise TypeError
  end.

Section Str.
(** Python's [repr] of a list or a dict, which [str] falls back to; it
    is part of the interpreter, not of the script. *)
Variable repr_compound : value → string.

(** [str(v)], what an f-string field [{v}] renders. *)
Definition py_str (v : value) : string :=
  match v with
  | VNone => "None"
  | VBool true => "True"
  | VBool false => "False"
  | VInt z => pretty z
  | VStr s => s
  | VList _ | VDict _ => repr_compound v
  end.
End Str.

End Py.
Export Py.

(** ** The part of [xml.etree.ElementTree] the feed adapter uses *)

Module ET.

Inductive element :=
| Element (tag : string) (text : option string) (children : list element).

Definition tag (e : element) : string :=
  match e with Element t _ _ => t end.
Definition text (e : element) : option string :=
  match e with Element _ t _ => t end.
Definition children (e : element) : list element :=
  match e with Element _ _ c => c end.

(** [e.iter()]: [e] and its descendants in document order. *)
Fixpoint iter (e : element) : list element :=
  match e with
  | Element _ _ c => e :: concat (map iter c)
  end.

(** [e.findall(".//" + t)]: the descendants of [e] (not [e] itself) with
    tag [t], in document order. *)
Definition findall_descendants (e : element) (t : string) : list element :=
  filter (λ x, tag x = t) (concat (map iter (children e))).

(** [e.findtext(t, dflt)]: the text of the first child with tag [t] (the
    empty string when that child has no text), [dflt] when there is none. *)
Definition findtext (e : element) (t : string) (dflt : string) : string :=
  match filter (λ x, tag x = t) (children e) with
  | x :: _ => default "" (text x)
  | [] => dflt
  end.

End ET.
Export ET.

(** ** The script *)

Module Newsletter.

(** *** Configuration *)

Definition RECIPIENT_EMAIL : string := "nick.valiton@synapsesem.com".
Definition SENDER_EMAIL : string := "nickvaliton@gmail.com".

Definition KEYWORDS : list string :=
  [ "AI search";
    "AI search engine";
    "Google AI Overviews";
    "SearchGPT";
    "Perplexity AI";
    "Bing Copilot search";
    "generative search";
    "AI SEO" ].

(** *** The outside world *)

(** What the script reads of a [requests] response: the status code, what
    [response.json()] gives and what [ET.fromstring(response.content)]
    gives; either parser may raise. *)
Record response := Response {
  status_code : Z;
  json : result value;
  xml : result element;
}.

(** The [Mail] object handed to SendGrid. *)
Record Mail := mkMail {
  from_email : string;
  to_emails : string;
  subject : string;
  html_content : string;
}.

(** Everything outside the process, as oracles: the environment variables
    read at import, the three readings of the clock already formatted by
    [strftime], the three services (each may raise), and the interpreter's
    [repr] for lists and dicts. *)
Record world := World {
  NEWSAPI_KEY : string;
  SENDGRID_API_KEY : string;
  ANTHROPIC_API_KEY : string;
  from_date_now : string;
  today_prompt_now : string;
  today_subject_now : string;
  http : string → option (list (string * value)) → result response;
  anthropic_text : string → Z → string → result string;
  sendgrid_status : Mail → result Z;
  py_repr : value → string;
}.

(** The calls that leave the process, in the order they are made. *)
Inductive event :=
| EPrint (line : string)
| ERequestsGet (url : string) (params : option (list (string * value)))
| EMessagesCreate (model : string) (max_tokens : Z) (prompt : string)
| ESendGridSend (m : Mail).

(** A computation that logs its events and returns or raises. *)
Record IO (A : Type) := mkIO {
  trace : list event;
  outcome : result A;
}.
Arguments mkIO {A} trace outcome.
Arguments trace {A} _.
Arguments outcome {A} _.

#[export] Instance IO_ret : MRet IO := λ A a, mkIO [] (Ok a).
#[export] Instance IO_bind : MBind IO := λ A B f m,
  match outcome m with
  | Ok a => let r := f a in mkIO (trace m ++ trace r) (outcome r)
  | Raise e => mkIO (trace m) (Raise e)
  end.

(** A computation that makes no call. *)
Definition lift {A} (r : result A) : IO A := mkIO [] r.

Definition print (line : string) : IO () := mkIO [EPrint line] (Ok ()).

(** *** Deduplication (lines 48-56 of [fetch_newsapi_articles]) *)

(** The key under which [a["url"]] is looked up in and added to [seen]:
    [a["url"]] is evaluated, then hashed. *)
Definition url_key (a : value) : result hkey :=
  u ← getitem a "url";
  py_hash u.

(** The loop [for a in articles] with its two variables [seen] and
    [unique]. *)
Fixpoint dedup_loop (articles : list value) (seen : gset hkey)
    (unique : list value) : result (list value) :=
  match articles with
  | [] => Ok unique
  | a :: rest =>
      k ← url_key a;
      if decide (k ∈ seen) then dedup_loop rest seen unique
      else dedup_loop rest ({[k]} ∪ seen) (unique ++ [a])
  end.

Definition deduplicate (articles : list value) : result (list value) :=
  dedup_loop articles ∅ [].

(** *** The feed entry to article record conversion (lines 72-81) *)

Definition rss_record (item : element) : value :=
  let title := findtext item "title" "" in
  let link := findtext item "link" "" in
  let pub_date := findtext item "pubDate" "" in
  VDict [ ("title", VStr title);
          ("url", VStr link);
          ("publishedAt", VStr pub_date);
          ("source", VDict [("name", VStr "Google News")]);
          ("description", VStr "") ].

(** The queries of [fetch_google_news_rss]. *)
Definition queries : list string :=
  [ "AI+search+trends"; "AI+search+engine"; "Google+AI+Overviews+SEO" ].

Definition rss_url (query : string) : string :=
  "https://news.google.com/rss/search?q=" +:+ query
  +:+ "&hl=en-US&gl=US&ceid=US:en".

Section Script.
Context (w : world).

Definition requests_get (url : string)
    (params : option (list (string * value))) : IO response :=
  mkIO [ERequestsGet url params] (http w url params).

(** *** [fetch_newsapi_articles] *)

Definition newsapi_params (keyword : string) : list (string * value) :=
  [ ("q", VStr (dq +:+ keyword +:+ dq));
    ("from", VStr (from_date_now w));
    ("sortBy", VStr "relevancy");
    ("language", VStr "en");
    ("pageSize", VInt 5);
    ("apiKey", VStr (NEWSAPI_KEY w)) ].

(** The loop [for keyword in KEYWORDS] with its variable [articles]. *)
Fixpoint newsapi_loop (keywords : list string) (articles : list value)
    : IO (list value) :=
  match keywords with
  | [] => mret articles
  | keyword :: rest =>
      response ← requests_get "https://newsapi.org/v2/everything"
                   (Some (newsapi_params keyword));
      if decide (status_code response = 200%Z) then
        data ← lift (json response);
        found ← lift (get data "articles" (VList []));
        items ← lift (py_iter found);
        newsapi_loop rest (articles ++ items)
      else newsapi_loop rest articles
  end.

Definition fetch_newsapi_articles_of (keywords : list string)
    : IO (list value) :=
  articles ← newsapi_loop keywords [];
  lift (deduplicate articles).

Definition fetch_newsapi_articles : IO (list value) :=
  fetch_newsapi_articles_of KEYWORDS.

(** *** [fetch_google_news_rss] *)

(** The inner loop [for item in root.findall(".//item")[:5]]. *)
Definition rss_items (root : element) (articles : list value) : list value :=
  foldl (λ acc item, acc ++ [rss_record item]) articles
        (take 5 (findall_descendants root "item")).

Fixpoint rss_loop (qs : list string) (articles : list value)
    : IO (list value) :=
  match qs with
  | [] => mret articles
  | query :: rest =>
      response ← requests_get (rss_url query) None;
      if decide (status_code response = 200%Z) then
        root ← lift (xml response);
        rss_loop rest (rss_items root articles)
      else rss_loop rest articles
  end.

Definition fetch_google_news_rss_of (qs : list string) : IO (list value) :=
  rss_loop qs [].

Definition fetch_google_news_rss : IO (list value) :=
  fetch_google_news_rss_of queries.

(** *** [format_articles_for_prompt] *)

(** The body of the loop: the paragraph of article [a] at index [i]. *)
Definition render_article (i : nat) (a : value) : result string :=
  t ← get a "title" VNone;
  let title := py_or t (VStr "") in
  s ← get a "source" (VDict []);
  n ← get s "name" VNone;
  let source := py_or n (VStr "Unknown") in
  p ← get a "publishedAt" VNone;
  let date := py_or p (VStr "") in
  d ← get a "description" VNone;
  let desc := py_or d (VStr "") in
  u ← get a "url" VNone;
  let url := py_or u (VStr "") in
  Ok (pretty i +:+ ". [" +:+ py_str (py_repr w) source +:+ "] "
      +:+ py_str (py_repr w) title +:+ nl +:+ "   "
      +:+ py_str (py_repr w) date +:+ nl +:+ "   "
      +:+ py_str (py_repr w) desc +:+ nl +:+ "   "
      +:+ py_str (py_repr w) url).

(** The loop [for i, a in enumerate(..., 1)] with its variable [lines]. *)
Fixpoint format_loop (i : nat) (articles : list value) (lines : list string)
    : result (list string) :=
  match articles with
  | [] => Ok lines
  | a :: rest =>
      line ← render_article i a;
      format_loop (S i) rest (lines ++ [line])
  end.

(** The list [lines] when the loop ends. *)
Definition format_lines (articles : list value) : result (list string) :=
  format_loop 1 (take 30 articles) [].

Definition format_articles_for_prompt (articles : list value)
    : result string :=
  lines ← format_lines articles;
  Ok (String.concat (nl +:+ nl) lines).

(** *** [generate_newsletter] *)

Definition prompt_text (today article_text : string) : string :=
  "You are an expert SEO and AI search analyst writing a weekly newsletter for Nick Valiton,
Associate Director of SEO at Synapse SEM in Boston.

Today is " +:+ today +:+ ". Here are this week's news articles about AI search trends:

" +:+ article_text +:+ "

Write a professional, engaging weekly newsletter called " +:+ dq +:+ "AI Search Weekly" +:+ dq +:+ " with the following structure:

1. A short intro (2-3 sentences) summarizing the week's biggest theme
2. " +:+ dq +:+ "This Week's Top Stories" +:+ dq +:+ " — 4-6 bullet points, each with a bold headline and 1-2 sentence summary. Include the source name.
3. " +:+ dq +:+ "What This Means for SEO" +:+ dq +:+ " — 2-3 practical takeaways for SEO professionals
4. A closing line signing off as " +:+ dq +:+ "AI Search Weekly" +:+ dq +:+ "

Format it cleanly for an HTML email. Use <h2>, <h3>, <p>, <ul>, <li>, and <strong> tags.
Do not include <html>, <head>, or <body> tags — just the inner content.
Keep the tone sharp, professional, and useful for a senior SEO practitioner.".

Definition generate_newsletter (articles : list value) : IO string :=
  article_text ← lift (format_articles_for_prompt articles);
  let today := today_prompt_now w in
  let prompt := prompt_text today article_text in
  mkIO [EMessagesCreate "claude-opus-4-5" 1500 prompt]
       (anthropic_text w "claude-opus-4-5" 1500%Z prompt).

(** *** [send_email] *)

Definition full_html_text (html_content : string) : string :=
  "
    <html>
    <body style=" +:+ dq +:+ "font-family: Georgia, serif; max-width: 640px; margin: 0 auto; padding: 24px; color: #1a1a1a; line-height: 1.6;" +:+ dq +:+ ">
        " +:+ html_content +:+ "
        <hr style=" +:+ dq +:+ "margin-top: 40px; border: none; border-top: 1px solid #ddd;" +:+ dq +:+ ">
        <p style=" +:+ dq +:+ "font-size: 12px; color: #888;" +:+ dq +:+ ">You're receiving this because you set it up. Unsubscribe? Just delete the GitHub Action.</p>
    </body>
    </html>
    ".

Definition send_email (html_content : string) : IO () :=
  let today := today_subject_now w in
  let subject := "AI Search Weekly — " +:+ today in
  let full_html := full_html_text html_content in
  let message := mkMail SENDER_EMAIL RECIPIENT_EMAIL subject full_html in
  status ← mkIO [ESendGridSend message] (sendgrid_status w message);
  print ("Email sent. Status code: " +:+ pretty status).

(** *** [main] *)

(** Lines 162-170: both adapters run and [all_articles] is built. *)
Definition main_collect : IO (list value) :=
  print "Fetching articles from NewsAPI...";;
  newsapi_articles ← fetch_newsapi_articles;
  print ("  Found " +:+ pretty (length newsapi_articles)
         +:+ " articles from NewsAPI");;
  print "Fetching articles from Google News RSS...";;
  rss_articles ← fetch_google_news_rss;
  print ("  Found " +:+ pretty (length rss_articles)
         +:+ " articles from Google News RSS");;
  mret (newsapi_articles ++ rss_articles).

(** Lines 172-181: what is done with [all_articles]. *)
Definition main_deliver (all_articles : list value) : IO () :=
  match all_articles with
  | [] => print "No articles found. Exiting."
  | _ :: _ =>
      print ("Generating newsletter from " +:+ pretty (length all_articles)
             +:+ " total articles...");;
      newsletter_html ← generate_newsletter all_articles;
      print "Sending email...";;
      send_email newsletter_html;;
      print "Done!"
  end.

Definition main : IO () :=
  all_articles ← main_collect;
  main_deliver all_articles.

End Script.

End Newsletter.
Export Newsletter.

(** ** Reference definitions and predicates for the statements *)

Module Reference.

(** The aggregation algorithm in the words of the specification: one pass
    from left to right with a set of seen URLs; a record whose URL is not in
    the set is put in the output and its URL is added to the set, any other
    record is dropped. *)
Fixpoint dedup_reference {A K} `{Countable K} (url : A → K) (seen : gset K)
    (records : list A) : list A :=
  match records with
  | [] => []
  | r :: rest =>
      if decide (url r ∈ seen) then dedup_reference url seen rest
      else r :: dedup_reference url ({[url r]} ∪ seen) rest
  end.

(** The records of [records] that are the first with their URL: record [i]
    stays when no record before position [i] has the same URL. *)
Definition first_occurrences {A K} `{EqDecision K} (url : A → K)
    (records : list A) : list A :=
  omap id
    (imap (λ i r, if decide (url r ∈ url <$> take i records) then None
                  else Some r)
          records).

End Reference.
Export Reference.

(** The URL key of a record, with [HNone] where [url_key] raises. *)
Definition url_of (a : value) : hkey :=
  match url_key a with
  | Ok k => k
  | Raise _ => HNone
  end.

(** The record's [url] is the empty string. *)
Definition empty_url (a : value) : Prop := url_key a = Ok (HStr "").



(** No two records of the list have the same non-empty string as [url]. *)
Definition no_duplicate_nonempty_url (l : list value) : Prop :=
  ∀ i j a b u,
    l !! i = Some a → l !! j = Some b →
    url_key a = Ok (HStr u) → url_key b = Ok (HStr u) →
    u ≠ "" → i = j.

(** What one keyword contributes to [articles]: the elements of the
    response's ["articles"] on status 200, nothing on any other status. *)
Definition keyword_results (w : world) (keyword : string)
    : result (list value) :=
  response ← http w "https://newsapi.org/v2/everything"
               (Some (newsapi_params w keyword));
  if decide (status_code response = 200%Z) then
    data ← json response;
    found ← get data "articles" (VList []);
    py_iter found
  else Ok [].

(** What one feed query contributes to [articles]. *)
Definition query_results (w : world) (query : string) : result (list value) :=
  response ← http w (rss_url query) None;
  if decide (status_code response = 200%Z) then
    root ← xml response;
    Ok (rss_record <$> take 5 (findall_descendants root "item"))
  else Ok [].


#[export] Instance empty_url_dec a : Decision (empty_url a).
Proof. unfold empty_url. apply _. Defined.

(** The formatter's input type: the record is a dict whose ["source"], when
    present, is a dict. *)
Definition formattable (a : value) : Prop :=
  ∃ d, a = VDict d ∧
       (lookup_key "source" d = None ∨
        ∃ s, lookup_key "source" d = Some (VDict s)).



(** The text the formatter prints for field [k] of the record [d]. *)
Definition field_text (w : world) (d : list (string * value)) (k : string)
    : string :=
  py_str (py_repr w) (py_or (default VNone (lookup_key k d)) (VStr "")).

(** The text the formatter prints between the square brackets. *)
Definition source_text (w : world) (d : list (string * value)) : string :=
  match default (VDict []) (lookup_key "source" d) with
  | VDict s =>
      py_str (py_repr w)
        (py_or (default VNone (lookup_key "name" s)) (VStr "Unknown"))
  | _ => ""
  end.

(** The record is a dict with the fixed source label and an empty
    description. *)
Definition google_record (a : value) : Prop :=
  ∃ d, a = VDict d ∧
       lookup_key "source" d = Some (VDict [("name", VStr "Google News")]) ∧
       lookup_key "description" d = Some (VStr "").

(** The entries taken from the feed of query [q]: none on a status other
    than 200, the first five [item] descendants of the document otherwise. *)
Definition query_items (w : world) (q : string) (items : list element)
    : Prop :=
  ∃ r, http w (rss_url q) None = Ok r ∧
       if decide (status_code r = 200%Z)
       then ∃ root, xml r = Ok root ∧
                    items = take 5 (findall_descendants root "item")
       else items = [].

(** The event is a call of the summarization or of the delivery service. *)
Definition collaborator_call (e : event) : Prop :=
  match e with
  | EMessagesCreate _ _ _ | ESendGridSend _ => True
  | EPrint _ | ERequestsGet _ _ => False
  end.

(** The event is an HTTP request. *)
Definition is_request (e : event) : Prop :=
  match e with
  | ERequestsGet _ _ => True
  | _ => False
  end.

(** The request the keyword adapter makes for [keyword]. *)
Definition newsapi_request (w : world) (keyword : string) : event :=
  ERequestsGet "https://newsapi.org/v2/everything"
               (Some (newsapi_params w keyword)).

(** The request the feed adapter makes for [query]. *)
Definition rss_request (query : string) : event :=
  ERequestsGet (rss_url query) None.

(** The event is a call of the delivery service. *)
Definition is_delivery (e : event) : Prop :=
  match e with
  | ESendGridSend _ => True
  | _ => False
  end.

(** The [Mail] object [send_email] builds for the newsletter text. *)
Definition newsletter_mail (w : world) (newsletter_html : string) : Mail :=
  {| from_email := SENDER_EMAIL;
     to_emails := RECIPIENT_EMAIL;
     subject := "AI Search Weekly — " +:+ today_subject_now w;
     html_content := full_html_text newsletter_html |}.

(** ** Sample data *)

Module Sample.

Definition article (source title description url published : value) : value :=
  VDict [ ("source", VDict [("id", VNone); ("name", source)]);
          ("title", title);
          ("description", description);
          ("url", url);
          ("publishedAt", published) ].

Definition a1 : value :=
  article (VStr "Wired") (VStr "Search goes generative")
          (VStr "Engines answer instead of listing links.")
          (VStr "https://example.com/generative")
          (VStr "2026-01-05T09:00:00Z").

Definition a1_again : value :=
  article (VStr "Wired") (VStr "Search goes generative (updated)")
          (VStr "Engines answer instead of listing links.")
          (VStr "https://example.com/generative")
          (VStr "2026-01-06T09:00:00Z").

Definition a2 : value :=
  article (VStr "The Verge") (VStr "An untitled link") VNone (VStr "")
          (VStr "2026-01-05T10:00:00Z").

Definition a3 : value :=
  article VNone VNone VNone (VStr "https://example.com/overviews")
          (VStr "2026-01-06T11:00:00Z").

Definition a4 : value :=
  article (VStr "Ars Technica") (VStr "Another untitled link")
          (VStr "No link was given.") (VStr "")
          (VStr "2026-01-07T08:00:00Z").

Definition ok_body (articles : list value) : value :=
  VDict [ ("status", VStr "ok");
          ("totalResults", VInt (Z.of_nat (length articles)));
          ("articles", VList articles) ].

Definition not_xml : result element := Raise (ExternalError "ParseError").
Definition not_json : result value := Raise (ExternalError "JSONDecodeError").

Definition newsapi_response (q : string) : response :=
  if decide (q = dq +:+ "AI search" +:+ dq) then
    Response 200 (Ok (ok_body [a1; a2])) not_xml
  else if decide (q = dq +:+ "AI search engine" +:+ dq) then
    Response 200 (Ok (ok_body [a1_again; a3; a4])) not_xml
  else if decide (q = dq +:+ "SearchGPT" +:+ dq) then
    Response 500 not_json not_xml
  else Response 200 (Ok (ok_body [])) not_xml.

Definition leaf (tag text : string) : element := Element tag (Some text) [].

Definition item (title link date : string) : element :=
  Element "item" None
    [leaf "title" title; leaf "link" link; leaf "pubDate" date].

Definition item_without_link (title date : string) : element :=
  Element "item" None [leaf "title" title; leaf "pubDate" date].

Definition feed (items : list element) : element :=
  Element "rss" None
    [Element "channel" None (leaf "title" "Google News" :: items)].

Definition feed_trends : element :=
  feed [ item "Search goes generative" "https://example.com/generative"
              "Mon, 05 Jan 2026 09:00:00 GMT";
         item "Answer engines" "https://example.com/answers"
              "Mon, 05 Jan 2026 12:00:00 GMT";
         item_without_link "A dangling entry" "Tue, 06 Jan 2026 07:00:00 GMT";
         item "Ranking in summaries" "https://example.com/ranking"
              "Tue, 06 Jan 2026 08:00:00 GMT";
         item "Zero-click searches" "https://example.com/zero-click"
              "Wed, 07 Jan 2026 08:00:00 GMT";
         item "A sixth entry" "https://example.com/sixth"
              "Wed, 07 Jan 2026 09:00:00 GMT" ].

Definition feed_overviews : element :=
  feed [ item "Answer engines" "https://example.com/answers"
              "Mon, 05 Jan 2026 12:00:00 GMT" ].

Definition sample_http (url : string)
    (params : option (list (string * value))) : result response :=
  match params with
  | Some ps =>
      match lookup_key "q" ps with
      | Some (VStr q) => Ok (newsapi_response q)
      | _ => Raise (ExternalError "ConnectionError")
      end
  | None =>
      if decide (url = rss_url "AI+search+trends") then
        Ok (Response 200 not_json (Ok feed_trends))
      else if decide (url = rss_url "Google+AI+Overviews+SEO") then
        Ok (Response 200 not_json (Ok feed_overviews))
      else Ok (Response 404 not_json not_xml)
  end.

Definition sample_world : world :=
  {| NEWSAPI_KEY := "newsapi-key";
     SENDGRID_API_KEY := "sendgrid-key";
     ANTHROPIC_API_KEY := "anthropic-key";
     from_date_now := "2026-01-01";
     today_prompt_now := "January 08, 2026";
     today_subject_now := "January 08, 2026";
     http := sample_http;
     anthropic_text := λ _ _ _, Ok "<h2>AI Search Weekly</h2>";
     sendgrid_status := λ _, Ok 202%Z;
     py_repr := λ _, "[...]" |}.

(** A world in which every request is answered with status 500. *)
Definition silent_world : world :=
  {| NEWSAPI_KEY := "newsapi-key";
     SENDGRID_API_KEY := "sendgrid-key";
     ANTHROPIC_API_KEY := "anthropic-key";
     from_date_now := "2026-01-01";
     today_prompt_now := "January 08, 2026";
     today_subject_now := "January 08, 2026";
     http := λ _ _, Ok (Response 500 not_json not_xml);
     anthropic_text := λ _ _ _, Ok "<h2>AI Search Weekly</h2>";
     sendgrid_status := λ _, Ok 202%Z;
     py_repr := λ _, "[...]" |}.

(** The list [all_articles] of the run of [main] in [sample_world]. *)
Definition sample_all_articles : list value :=
  [ a1; a2; a3;
    rss_record (item "Search goes generative" "https://example.com/generative"
                     "Mon, 05 Jan 2026 09:00:00 GMT");
    rss_record (item "Answer engines" "https://example.com/answers"
                     "Mon, 05 Jan 2026 12:00:00 GMT");
    rss_record (item_without_link "A dangling entry"
                                  "Tue, 06 Jan 2026 07:00:00 GMT");
    rss_record (item "Ranking in summaries" "https://example.com/ranking"
                     "Tue, 06 Jan 2026 08:00:00 GMT");
    rss_record (item "Zero-click searches" "https://example.com/zero-click"
                     "Wed, 07 Jan 2026 08:00:00 GMT");
    rss_record (item "Answer engines" "https://example.com/answers"
                     "Mon, 05 Jan 2026 12:00:00 GMT") ].

(** Two records with the same link and different titles. *)
Definition first_a : value := VDict [("url", VStr "a"); ("title", VStr "T1")].
Definition second_a : value := VDict [("url", VStr "a"); ("title", VStr "T2")].

(** Forty records with distinct titles and links. *)
Definition forty : list value :=
  (λ n, article (VStr "Wired") (VStr ("Story " +:+ pretty n)) VNone
                (VStr ("https://example.com/" +:+ pretty n))
                (VStr "2026-01-05T09:00:00Z")) <$> seq 1 40.

(** Worlds that differ from a given one in one service. *)
Definition with_http (w : world)
    (h : string → option (list (string * value)) → result response) : world :=
  {| NEWSAPI_KEY := NEWSAPI_KEY w;
     SENDGRID_API_KEY := SENDGRID_API_KEY w;
     ANTHROPIC_API_KEY := ANTHROPIC_API_KEY w;
     from_date_now := from_date_now w;
     today_prompt_now := today_prompt_now w;
     today_subject_now := today_subject_now w;
     http := h;
     anthropic_text := anthropic_text w;
     sendgrid_status := sendgrid_status w;
     py_repr := py_repr w |}.

Definition with_model (w : world)
    (f : string → Z → string → result string) : world :=
  {| NEWSAPI_KEY := NEWSAPI_KEY w;
     SENDGRID_API_KEY := SENDGRID_API_KEY w;
     ANTHROPIC_API_KEY := ANTHROPIC_API_KEY w;
     from_date_now := from_date_now w;
     today_prompt_now := today_prompt_now w;
     today_subject_now := today_subject_now w;
     http := http w;
     anthropic_text := f;
     sendgrid_status := sendgrid_status w;
     py_repr := py_repr w |}.

Definition with_mailer (w : world) (f : Mail → result Z) : world :=
  {| NEWSAPI_KEY := NEWSAPI_KEY w;
     SENDGRID_API_KEY := SENDGRID_API_KEY w;
     ANTHROPIC_API_KEY := ANTHROPIC_API_KEY w;
     from_date_now := from_date_now w;
     today_prompt_now := today_prompt_now w;
     today_subject_now := today_subject_now w;
     http := http w;
     anthropic_text := anthropic_text w;
     sendgrid_status := f;
     py_repr := py_repr w |}.

(** The world [w] with the NewsAPI request for [keyword] answered by
    [answer]. *)
Definition answer_keyword (w : world) (keyword : string)
    (answer : result response) : world :=
  with_http w (λ url params,
    match params with
    | Some ps =>
        match lookup_key "q" ps with
        | Some (VStr q) =>
            if decide (q = dq +:+ keyword +:+ dq) then answer
            else http w url params
        | _ => http w url params
        end
    | None => http w url params
    end).

(** The world [w] with the feed request for [query] answered by [answer]. *)
Definition answer_query (w : world) (query : string)
    (answer : result response) : world :=
  with_http w (λ url params,
    match params with
    | None =>
        if decide (url = rss_url query) then answer else http w url params
    | Some _ => http w url params
    end).

Definition connection_error : exn := ExternalError "ConnectionError".

(** The third keyword's request fails at the network level. *)
Definition offline_world : world :=
  answer_keyword sample_world "Google AI Overviews" (Raise connection_error).

(** NewsAPI answers one keyword with an error body under status 200. *)
Definition error_body : list (string * value) :=
  [("status", VStr "error"); ("code", VStr "rateLimited")].

Definition no_articles_key_world : world :=
  answer_keyword sample_world "Perplexity AI"
    (Ok (Response 200 (Ok (VDict error_body)) not_xml)).

(** NewsAPI answers one keyword with a null article list. *)
Definition null_articles_body : list (string * value) :=
  [("status", VStr "ok"); ("articles", VNone)].

Definition null_articles_world : world :=
  answer_keyword sample_world "Perplexity AI"
    (Ok (Response 200 (Ok (VDict null_articles_body)) not_xml)).

(** The second feed answers 200 with a document that does not parse. *)
Definition broken_feed_world : world :=
  answer_query sample_world "AI+search+engine"
    (Ok (Response 200 not_json not_xml)).

(** NewsAPI returns a record whose source is null. *)
Definition sourceless : value :=
  VDict [ ("source", VNone); ("title", VStr "No source");
          ("url", VStr "https://example.com/sourceless") ].

Definition null_source_world : world :=
  answer_keyword sample_world "AI SEO"
    (Ok (Response 200 (Ok (ok_body [sourceless])) not_xml)).

(** The model call raises. *)
Definition model_down_world : world :=
  with_model sample_world (λ _ _ _, Raise (ExternalError "APIError")).

(** The mail service raises. *)
Definition mailer_down_world : world :=
  with_mailer sample_world (λ _, Raise (ExternalError "HTTPError")).

End Sample.
Import Sample.

(** * Proofs *)

(** ** The error monad and the writer monad *)

Lemma result_bind_Ok {A B} (f : A → result B) (m : result A) (b : B) :
  m ≫= f = Ok b ↔ ∃ a, m = Ok a ∧ f a = Ok b.
Proof. destruct m; simpl; naive_solver. Qed.

Lemma outcome_bind {A B} (f : A → IO B) (m : IO A) :
  outcome (m ≫= f) = outcome m ≫= (λ a, outcome (f a)).
Proof. unfold mbind at 1, IO_bind. by destruct (outcome m). Qed.

Lemma trace_bind_Ok {A B} (f : A → IO B) (m : IO A) (a : A) :
  outcome m = Ok a → trace (m ≫= f) = trace m ++ trace (f a).
Proof. intros Hm. unfold mbind, IO_bind. by rewrite Hm. Qed.

Lemma trace_bind_Raise {A B} (f : A → IO B) (m : IO A) (e : exn) :
  outcome m = Raise e → trace (m ≫= f) = trace m.
Proof. intros Hm. unfold mbind, IO_bind. by rewrite Hm. Qed.

(** ** The deduplication loop *)

Lemma url_key_Ok_inv a k :
  url_key a = Ok k →
  ∃ d v, a = VDict d ∧ lookup_key "url" d = Some v ∧ py_hash v = Ok k.
Proof.
  unfold url_key, getitem. destruct a as [| | | | |d]; try done.
  simpl. destruct (lookup_key "url" d) as [v|] eqn:Hd; [|done].
  simpl. eauto.
Qed.

Lemma url_key_url_of a : is_Ok (url_key a) → url_key a = Ok (url_of a).
Proof. intros [k Hk]. unfold url_of. by rewrite Hk. Qed.

Lemma dedup_loop_reference (url : value → hkey) l seen unique :
  Forall (λ a, url_key a = Ok (url a)) l →
  dedup_loop l seen unique = Ok (unique ++ dedup_reference url seen l).
Proof.
  intros Hl. revert seen unique.
  induction Hl as [|a l Ha _ IH]; intros seen unique; simpl.
  - by rewrite app_nil_r.
  - rewrite Ha. simpl. case_decide; [apply IH|].
    by rewrite IH, <-(assoc_L (++)).
Qed.

Lemma dedup_loop_Ok_inv l seen unique out :
  dedup_loop l seen unique = Ok out → Forall (λ a, is_Ok (url_key a)) l.
Proof.
  revert seen unique. induction l as [|a l IH]; intros seen unique; simpl.
  - constructor.
  - destruct (url_key a) as [k|e] eqn:Ha; [|done]. simpl.
    intros Hout. constructor; [by exists k|].
    case_decide; eauto.
Qed.


Lemma deduplicate_reference l out :
  deduplicate l = Ok out →
  Forall (λ a, url_key a = Ok (url_of a)) l ∧
  out = dedup_reference url_of ∅ l.
Proof.
  intros Hout.
  assert (Hl : Forall (λ a, url_key a = Ok (url_of a)) l).
  { eapply Forall_impl; [by eapply dedup_loop_Ok_inv|].
    intros a. apply url_key_url_of. }
  split; [done|].
  unfold deduplicate in Hout.
  rewrite (dedup_loop_reference url_of) in Hout by done. by injection Hout.
Qed.

(** ** The adapters *)

Lemma rss_items_app root articles :
  rss_items root articles
  = articles ++ (rss_record <$> take 5 (findall_descendants root "item")).
Proof.
  unfold rss_items. generalize (take 5 (findall_descendants root "item")).
  intros items. revert articles.
  induction items as [|x items IH]; intros articles; simpl.
  - by rewrite app_nil_r.
  - by rewrite IH, <-(assoc_L (++)).
Qed.

Lemma newsapi_loop_outcome w kws acc :
  outcome (newsapi_loop w kws acc)
  = rs ← mapM (keyword_results w) kws; Ok (acc ++ concat rs).
Proof.
  revert acc. induction kws as [|kw kws IH]; intros acc.
  - simpl. by rewrite app_nil_r.
  - cbn [newsapi_loop mapM]. rewrite outcome_bind.
    set (tl := mapM (keyword_results w) kws) in *.
    unfold keyword_results, requests_get. cbn [outcome].
    destruct (http w _ _) as [r|e]; [|done]. cbn [mbind result_bind].
    case_decide.
    + rewrite !outcome_bind. cbn [lift outcome].
      destruct (json r) as [data|e]; [|done]. cbn [mbind result_bind].
      rewrite !outcome_bind. cbn [lift outcome].
      destruct (get data "articles" (VList [])) as [found|e]; [|done].
      cbn [mbind result_bind]. rewrite !outcome_bind. cbn [lift outcome].
      destruct (py_iter found) as [items|e]; [|done].
      cbn [mbind result_bind]. rewrite IH.
      destruct tl as [rs|e]; [|done].
      simpl. by rewrite (assoc_L (++)).
    + rewrite IH. by destruct tl.
Qed.

Lemma fetch_newsapi_articles_of_outcome w kws :
  outcome (fetch_newsapi_articles_of w kws)
  = rs ← mapM (keyword_results w) kws; deduplicate (concat rs).
Proof.
  unfold fetch_newsapi_articles_of. rewrite outcome_bind, newsapi_loop_outcome.
  by destruct (mapM (keyword_results w) kws).
Qed.

Lemma rss_loop_outcome w qs acc :
  outcome (rss_loop w qs acc)
  = rs ← mapM (query_results w) qs; Ok (acc ++ concat rs).
Proof.
  revert acc. induction qs as [|q qs IH]; intros acc.
  - simpl. by rewrite app_nil_r.
  - cbn [rss_loop mapM]. rewrite outcome_bind.
    set (tl := mapM (query_results w) qs) in *.
    unfold query_results, requests_get. cbn [outcome].
    destruct (http w _ _) as [r|e]; [|done]. cbn [mbind result_bind].
    case_decide.
    + rewrite !outcome_bind. cbn [lift outcome].
      destruct (xml r) as [root|e]; [|done]. cbn [mbind result_bind].
      rewrite IH, rss_items_app.
      destruct tl as [rs|e]; [|done].
      simpl. by rewrite (assoc_L (++)).
    + rewrite IH. by destruct tl.
Qed.

Lemma fetch_google_news_rss_of_outcome w qs :
  outcome (fetch_google_news_rss_of w qs)
  = rs ← mapM (query_results w) qs; Ok (concat rs).
Proof. apply rss_loop_outcome. Qed.


(** ** The reference algorithm *)

Section DedupReference.
Context {A K : Type} `{Countable K} (url : A → K).
Implicit Types (seen : gset K) (l : list A).

Lemma dedup_reference_sublist seen l : sublist (dedup_reference url seen l) l.
Proof.
  revert seen. induction l as [|r l IH]; intros seen; simpl.
  - constructor.
  - case_decide.
    + by apply sublist_cons.
    + by apply sublist_skip.
Qed.

Lemma dedup_reference_fresh seen l r :
  r ∈ dedup_reference url seen l → url r ∉ seen.
Proof.
  revert seen. induction l as [|x l IH]; intros seen; simpl.
  - by intros ?%elem_of_nil.
  - case_decide as Hx.
    + apply IH.
    + intros [->|Hr]%elem_of_cons; [done|].
      apply IH in Hr. set_solver.
Qed.

Lemma dedup_reference_NoDup seen l : NoDup (url <$> dedup_reference url seen l).
Proof.
  revert seen. induction l as [|x l IH]; intros seen; simpl.
  - constructor.
  - case_decide as Hx; [apply IH|].
    rewrite fmap_cons. constructor; [|apply IH].
    intros (r & Hr & Hin)%list_elem_of_fmap.
    apply dedup_reference_fresh in Hin. set_solver.
Qed.

(** For each key, the records kept with that key are the first record of the
    input with that key, unless the key was seen before the pass. *)
Lemma dedup_reference_filter_key seen l k :
  filter (λ r, url r = k) (dedup_reference url seen l)
  = if decide (k ∈ seen) then [] else take 1 (filter (λ r, url r = k) l).
Proof.
  revert seen. induction l as [|x l IH]; intros seen; simpl.
  - by case_decide.
  - destruct (decide (url x ∈ seen)) as [Hx|Hx].
    + rewrite IH. case_decide as Hk; [done|].
      rewrite filter_cons. case_decide; [congruence|done].
    + rewrite !filter_cons. destruct (decide (url x = k)) as [Heq|Hne].
      * rewrite IH. rewrite decide_True by set_solver.
        rewrite decide_False by congruence. done.
      * rewrite IH. destruct (decide (k ∈ seen)).
        -- by rewrite decide_True by set_solver.
        -- by rewrite decide_False by set_solver.
Qed.

Lemma dedup_reference_first_from pre l :
  dedup_reference url (list_to_set (url <$> pre)) l
  = omap id (imap (λ i r, if decide (url r ∈ url <$> take (length pre + i) (pre ++ l))
                          then None else Some r) l).
Proof.
  revert pre. induction l as [|x l IH]; intros pre; [done|].
  rewrite imap_cons.
  rewrite (imap_ext _
    (λ i r, if decide (url r ∈ url <$> take (length (pre ++ [x]) + i)
                                             ((pre ++ [x]) ++ l))
            then None else Some r) l); last first.
  { intros i r _. simpl. rewrite length_app, <-(assoc_L (++)). simpl.
    by replace (length pre + 1 + i) with (length pre + S i) by lia. }
  rewrite Nat.add_0_r, take_app_length. cbn [dedup_reference].
  assert (Hset : ({[url x]} ∪ list_to_set (url <$> pre) : gset K)
                 = list_to_set (url <$> pre ++ [x])).
  { rewrite fmap_app, list_to_set_app_L. set_solver. }
  destruct (decide (url x ∈ url <$> pre)) as [Hin|Hin].
  - rewrite decide_True by set_solver.
    change (omap id (None :: ?t)) with (omap id t).
    rewrite <-IH. f_equal. rewrite <-Hset. set_solver.
  - rewrite decide_False by set_solver.
    change (omap id (Some x :: ?t)) with (x :: omap id t).
    by rewrite <-IH, Hset.
Qed.

Lemma dedup_reference_first l :
  dedup_reference url ∅ l = first_occurrences url l.
Proof. apply (dedup_reference_first_from []). Qed.
End DedupReference.

(** ** Helper lemmas for the statements about runs *)

Lemma mapM_result_Forall2 {A B} (f : A → result B) l k :
  mapM f l = Ok k ↔ Forall2 (λ x y, f x = Ok y) l k.
Proof.
  revert k. induction l as [|x l IH]; intros k; simpl.
  - split.
    + intros [= <-]. constructor.
    + by intros ->%Forall2_nil_inv_l.
  - split.
    + destruct (f x) as [y|] eqn:Hx; [|done]. simpl.
      destruct (mapM f l) as [k'|] eqn:Hl; [|done]. simpl.
      intros [= <-]. constructor; [done|]. by apply IH.
    + intros (y & k' & Hx & Hl & ->)%Forall2_cons_inv_l.
      rewrite Hx. simpl. apply IH in Hl. by rewrite Hl.
Qed.

Lemma url_of_empty_url a :
  is_Ok (url_key a) → (url_of a = HStr "" ↔ empty_url a).
Proof.
  intros [k Hk]. unfold url_of, empty_url. rewrite Hk. naive_solver.
Qed.

Lemma filter_empty_url_url_of l :
  Forall (λ a, is_Ok (url_key a)) l →
  filter empty_url l = filter (λ a, url_of a = HStr "") l.
Proof.
  induction 1 as [|a l Ha _ IH]; [done|].
  rewrite !filter_cons, IH.
  destruct (decide (empty_url a)) as [He|He];
    destruct (decide (url_of a = HStr "")) as [Hu|Hu]; try done.
  - by apply url_of_empty_url in He.
  - by apply url_of_empty_url in Hu.
Qed.

(** What [deduplicate] keeps: a list in input order, with pairwise distinct
    URL keys, in which each key of the input is represented by the first
    record carrying it. *)
Lemma deduplicate_Ok_props l out :
  deduplicate l = Ok out →
  Forall (λ a, is_Ok (url_key a)) out ∧
  sublist out l ∧
  NoDup (url_of <$> out) ∧
  filter empty_url out = take 1 (filter empty_url l).
Proof.
  intros Hout. pose proof (dedup_loop_Ok_inv _ _ _ _ Hout) as Hl.
  apply deduplicate_reference in Hout as [_ ->].
  pose proof (dedup_reference_sublist url_of ∅ l) as Hsub.
  assert (Hok : Forall (λ a, is_Ok (url_key a)) (dedup_reference url_of ∅ l)).
  { rewrite Forall_forall in Hl. apply Forall_forall. intros a Ha.
    apply Hl. by eapply elem_of_sublist. }
  split_and!; [done|done|apply dedup_reference_NoDup|].
  rewrite !filter_empty_url_url_of by done.
  by rewrite dedup_reference_filter_key.
Qed.

Lemma outcome_print_bind {B} (line : string) (f : () → IO B) :
  outcome (print line ≫= f) = outcome (f ()).
Proof. done. Qed.

Lemma trace_print_bind {B} (line : string) (f : () → IO B) :
  trace (print line ≫= f) = EPrint line :: trace (f ()).
Proof. done. Qed.

Lemma main_collect_outcome w :
  outcome (main_collect w)
  = news ← outcome (fetch_newsapi_articles w);
    rss ← outcome (fetch_google_news_rss w);
    Ok (news ++ rss).
Proof.
  unfold main_collect. rewrite outcome_print_bind, outcome_bind.
  destruct (outcome (fetch_newsapi_articles w)) as [news|e]; [|done].
  cbn [mbind result_bind].
  rewrite !outcome_print_bind, outcome_bind.
  destruct (outcome (fetch_google_news_rss w)) as [rss|e]; [|done].
  done.
Qed.

Lemma main_collect_Ok_inv w all :
  outcome (main_collect w) = Ok all →
  ∃ raw news rss,
    mapM (keyword_results w) KEYWORDS = Ok raw ∧
    deduplicate (concat raw) = Ok news ∧
    outcome (fetch_newsapi_articles w) = Ok news ∧
    outcome (fetch_google_news_rss w) = Ok rss ∧
    all = news ++ rss.
Proof.
  rewrite main_collect_outcome.
  destruct (outcome (fetch_newsapi_articles w)) as [news|] eqn:Hn; [|done].
  cbn [mbind result_bind].
  destruct (outcome (fetch_google_news_rss w)) as [rss|] eqn:Hr; [|done].
  cbn [mbind result_bind]. intros [= <-].
  unfold fetch_newsapi_articles in Hn.
  rewrite fetch_newsapi_articles_of_outcome in Hn.
  destruct (mapM (keyword_results w) KEYWORDS) as [raw|] eqn:Hraw; [|done].
  cbn [mbind result_bind] in Hn.
  by exists raw, news, rss.
Qed.

(** ** The formatter *)

Lemma render_article_dict w i d :
  (lookup_key "source" d = None ∨ ∃ s, lookup_key "source" d = Some (VDict s)) →
  render_article w i (VDict d)
  = Ok (pretty i +:+ ". [" +:+ source_text w d +:+ "] "
        +:+ field_text w d "title" +:+ nl +:+ "   "
        +:+ field_text w d "publishedAt" +:+ nl +:+ "   "
        +:+ field_text w d "description" +:+ nl +:+ "   "
        +:+ field_text w d "url").
Proof.
  intros Hsrc. unfold render_article, source_text, field_text, get.
  destruct Hsrc as [->|[s ->]]; done.
Qed.

Lemma render_article_is_Ok w i a :
  is_Ok (render_article w i a) ↔ formattable a.
Proof.
  split.
  - intros [line Hline]. destruct a as [| | | | |d]; try done.
    exists d. split; [done|].
    unfold render_article, get in Hline. cbn [mbind result_bind] in Hline.
    destruct (lookup_key "source" d) as [[| | | | |s]|]; try done; eauto.
  - intros (d & -> & Hsrc). rewrite render_article_dict by done. by eexists.
Qed.

Lemma format_loop_formattable w l i lines :
  Forall formattable l →
  ∃ new,
    format_loop w i l lines = Ok (lines ++ new) ∧
    length new = length l ∧
    ∀ k a, l !! k = Some a →
      ∃ line, render_article w (i + k) a = Ok line ∧ new !! k = Some line.
Proof.
  intros Hl. revert i lines.
  induction Hl as [|a l Ha _ IH]; intros i lines.
  - exists []. simpl. by rewrite app_nil_r.
  - apply (render_article_is_Ok w i) in Ha as [line Hline].
    destruct (IH (S i) (lines ++ [line])) as (new & Hloop & Hlen & Hnew).
    exists (line :: new). simpl. rewrite Hline. simpl.
    rewrite Hloop, <-(assoc_L (++)). split_and!; [done|by rewrite Hlen|].
    intros [|k] b Hb; simpl in *.
    + injection Hb as <-. rewrite Nat.add_0_r. eauto.
    + rewrite <-Nat.add_succ_comm. by apply Hnew.
Qed.

Lemma format_loop_Raise w pre a post e i lines :
  Forall formattable pre →
  render_article w (i + length pre) a = Raise e →
  format_loop w i (pre ++ a :: post) lines = Raise e.
Proof.
  intros Hpre. revert i lines.
  induction Hpre as [|b pre Hb _ IH]; intros i lines Ha; simpl in *.
  - rewrite Nat.add_0_r in Ha. by rewrite Ha.
  - apply (render_article_is_Ok w i) in Hb as [line ->]. simpl.
    apply IH. by rewrite Nat.add_succ_comm.
Qed.

Lemma article_formattable source title description url published :
  formattable (article source title description url published).
Proof. eexists. split; [done|]. right. by eexists. Qed.

Lemma forty_formattable : Forall formattable forty.
Proof.
  unfold forty. apply Forall_fmap, Forall_forall. intros n _.
  apply article_formattable.
Qed.



(** ** Traces *)

Lemma trace_bind {A B} (f : A → IO B) (m : IO A) :
  trace (m ≫= f)
  = trace m ++ match outcome m with Ok a => trace (f a) | Raise _ => [] end.
Proof.
  unfold mbind, IO_bind. destruct (outcome m); simpl; [done|].
  by rewrite app_nil_r.
Qed.

Lemma Forall_trace_bind {A B} (P : event → Prop) (f : A → IO B) (m : IO A) :
  Forall P (trace m) → (∀ a, Forall P (trace (f a))) →
  Forall P (trace (m ≫= f)).
Proof.
  intros Hm Hf. rewrite trace_bind. apply Forall_app. split; [done|].
  destruct (outcome m); [apply Hf|constructor].
Qed.

Lemma newsapi_loop_trace w kws acc :
  Forall is_request (trace (newsapi_loop w kws acc)).
Proof.
  revert acc. induction kws as [|kw kws IH]; intros acc; simpl.
  - constructor.
  - apply Forall_trace_bind; [by repeat constructor|].
    intros r. case_decide; [|apply IH].
    repeat (apply Forall_trace_bind; [constructor|]; intros ?). apply IH.
Qed.

Lemma fetch_newsapi_articles_of_trace w kws :
  Forall is_request (trace (fetch_newsapi_articles_of w kws)).
Proof.
  apply Forall_trace_bind; [apply newsapi_loop_trace|]. constructor.
Qed.

Lemma rss_loop_trace w qs acc :
  Forall is_request (trace (rss_loop w qs acc)).
Proof.
  revert acc. induction qs as [|q qs IH]; intros acc; simpl.
  - constructor.
  - apply Forall_trace_bind; [by repeat constructor|].
    intros r. case_decide; [|apply IH].
    apply Forall_trace_bind; [constructor|]. intros ?. apply IH.
Qed.

Lemma main_collect_trace w :
  Forall (λ e, ¬ collaborator_call e) (trace (main_collect w)).
Proof.
  assert (Hreq : ∀ l, Forall is_request l →
                      Forall (λ e, ¬ collaborator_call e) l).
  { intros l Hl. eapply Forall_impl; [done|]. by intros [] ? ?. }
  assert (Hprint : ∀ line, Forall (λ e, ¬ collaborator_call e)
                                  (trace (print line))).
  { intros line. repeat constructor. by intros []. }
  unfold main_collect.
  apply Forall_trace_bind; [apply Hprint|]. intros _.
  apply Forall_trace_bind; [apply Hreq, fetch_newsapi_articles_of_trace|].
  intros news.
  apply Forall_trace_bind; [apply Hprint|]. intros _.
  apply Forall_trace_bind; [apply Hprint|]. intros _.
  apply Forall_trace_bind; [apply Hreq, rss_loop_trace|]. intros rss.
  apply Forall_trace_bind; [apply Hprint|]. intros _. constructor.
Qed.

(** ** Removing a keyword that contributes nothing *)

Section SkipKeyword.
Context {A B : Type} (f : string → result (list A)) (g : list A → result B).
Context (keyword : string) (Hskip : f keyword = Ok []).

Lemma mapM_skip_one pre post acc :
  (rs ← mapM f (pre ++ keyword :: post); g (acc ++ concat rs))
  = (rs ← mapM f (pre ++ post); g (acc ++ concat rs)).
Proof.
  revert acc. induction pre as [|k pre IH]; intros acc; simpl.
  - rewrite Hskip. simpl. by destruct (mapM f post).
  - destruct (f k) as [y|e]; [|done]. simpl.
    specialize (IH (acc ++ y)).
    destruct (mapM f (pre ++ keyword :: post)) as [rs|e],
             (mapM f (pre ++ post)) as [rs'|e']; simpl in *;
      by rewrite ?(assoc_L (++)).
Qed.

Lemma mapM_skip_all kws acc :
  (rs ← mapM f kws; g (acc ++ concat rs))
  = (rs ← mapM f (filter (λ k, k ≠ keyword) kws); g (acc ++ concat rs)).
Proof.
  revert acc. induction kws as [|k kws IH]; intros acc; [done|].
  rewrite filter_cons. destruct (decide (k ≠ keyword)) as [Hne|Heq].
  - simpl. destruct (f k) as [y|e]; [|done]. simpl.
    specialize (IH (acc ++ y)).
    destruct (mapM f kws) as [rs|e],
             (mapM f (filter _ kws)) as [rs'|e']; simpl in *;
      by rewrite ?(assoc_L (++)).
  - apply dec_stable in Heq as ->. rewrite <-IH. simpl. rewrite Hskip. simpl.
    by destruct (mapM f kws).
Qed.
End SkipKeyword.

(** ** The feed adapter *)

Lemma rss_record_google item : google_record (rss_record item).
Proof. by eexists. Qed.

Lemma query_results_Ok_inv w q rs :
  query_results w q = Ok rs →
  ∃ items, query_items w q items ∧ (length items ≤ 5)%nat ∧
           rs = rss_record <$> items.
Proof.
  unfold query_results, query_items.
  destruct (http w (rss_url q) None) as [r|] eqn:Hr; [|done]. simpl.
  destruct (decide (status_code r = 200%Z)) as [H200|H200].
  - destruct (xml r) as [root|] eqn:Hroot; [|done]. simpl. intros [= <-].
    exists (take 5 (findall_descendants root "item")). split_and!.
    + exists r. rewrite decide_True by done. eauto.
    + rewrite length_take. lia.
    + done.
  - intros [= <-]. exists []. split_and!; [|simpl; lia|done].
    exists r. by rewrite decide_False.
Qed.

Lemma query_results_per_query w qs feeds :
  Forall2 (λ q rs, query_results w q = Ok rs) qs feeds →
  ∃ per_query : list (list element),
    Forall2 (query_items w) qs per_query ∧
    Forall (λ items, (length items ≤ 5)%nat) per_query ∧
    feeds = (λ items : list element, rss_record <$> items) <$> per_query.
Proof.
  induction 1 as [|q rs qs feeds Hq _ (per_query & Hitems & Hlen & ->)].
  - exists []. by repeat constructor.
  - apply query_results_Ok_inv in Hq as (items & Hi & Hl & ->).
    exists (items :: per_query). split_and!; [by constructor|by constructor|done].
Qed.

(** * The claims *)

(** C1, as stated, fails: in the sample run the list handed to the formatter
    holds the link [https://example.com/generative] twice (a NewsAPI record
    at position 0, a feed record at position 3). *)
Lemma aggregated_list_has_duplicate_url :
  ∃ l a b,
    outcome (main_collect sample_world) = Ok l ∧
    l !! 0 = Some a ∧ l !! 3 = Some b ∧
    url_key a = Ok (HStr "https://example.com/generative") ∧
    url_key b = Ok (HStr "https://example.com/generative") ∧
    ¬ no_duplicate_nonempty_url l.
Proof.
  eexists _, _, _. split; [vm_compute; reflexivity|].
  split_and!; [reflexivity|reflexivity|reflexivity|reflexivity|].
  intros Hno.
  specialize (Hno 0 3 _ _ "https://example.com/generative"
                  eq_refl eq_refl eq_refl eq_refl).
  discriminate Hno. done.
Qed.

(** C1, amended: the list handed to the formatter is the keyword adapter's
    output followed by the feed adapter's output as fetched; every record of
    the keyword part has a hashable [url] and no two of them have the same
    one (empty or not). *)
Theorem keyword_part_has_unique_urls w all :
  outcome (main_collect w) = Ok all →
  ∃ news rss feeds,
    outcome (fetch_newsapi_articles w) = Ok news ∧
    outcome (fetch_google_news_rss w) = Ok rss ∧
    all = news ++ rss ∧
    Forall (λ a, is_Ok (url_key a)) news ∧
    NoDup (url_of <$> news) ∧
    mapM (query_results w) queries = Ok feeds ∧
    rss = concat feeds.
Proof.
  intros (raw & news & rss & Hraw & Hdedup & Hnews & Hrss & ->)%main_collect_Ok_inv.
  apply deduplicate_Ok_props in Hdedup as (Hok & _ & Hnodup & _).
  pose proof Hrss as Hrss'. unfold fetch_google_news_rss in Hrss'.
  rewrite fetch_google_news_rss_of_outcome in Hrss'.
  destruct (mapM (query_results w) queries) as [feeds|] eqn:Hfeeds; [|done].
  injection Hrss' as <-.
  by exists news, (concat feeds), feeds.
Qed.

Lemma keyword_part_has_unique_urls_sample :
  ∃ news rss feeds,
    outcome (fetch_newsapi_articles sample_world) = Ok news ∧
    outcome (fetch_google_news_rss sample_world) = Ok rss ∧
    sample_all_articles = news ++ rss ∧
    Forall (λ a, is_Ok (url_key a)) news ∧
    NoDup (url_of <$> news) ∧
    mapM (query_results sample_world) queries = Ok feeds ∧
    rss = concat feeds.
Proof.
  apply (keyword_part_has_unique_urls sample_world sample_all_articles).
  vm_compute. reflexivity.
Defined.

(** C2, as stated, fails: in the sample run two records with an empty [url]
    reach the formatter, one from NewsAPI and one feed entry without a
    link. *)
Lemma two_empty_urls_survive :
  ∃ l a b,
    outcome (main_collect sample_world) = Ok l ∧
    l !! 1 = Some a ∧ l !! 5 = Some b ∧
    empty_url a ∧ empty_url b ∧
    length (filter empty_url l) = 2.
Proof.
  eexists _, _, _. split; [vm_compute; reflexivity|].
  split_and!; reflexivity.
Qed.

(** C2, amended: among the records the keyword adapter returns, the ones
    with an empty [url] are exactly the first such record of the combined
    NewsAPI results, so at most one; the feed records with an empty [url]
    all reach the formatter as well. *)
Theorem one_empty_url_in_keyword_part w all :
  outcome (main_collect w) = Ok all →
  ∃ raw news rss,
    mapM (keyword_results w) KEYWORDS = Ok raw ∧
    outcome (fetch_newsapi_articles w) = Ok news ∧
    outcome (fetch_google_news_rss w) = Ok rss ∧
    all = news ++ rss ∧
    filter empty_url news = take 1 (filter empty_url (concat raw)) ∧
    (length (filter empty_url news) ≤ 1)%nat ∧
    filter empty_url all = filter empty_url news ++ filter empty_url rss.
Proof.
  intros (raw & news & rss & Hraw & Hdedup & Hnews & Hrss & ->)%main_collect_Ok_inv.
  apply deduplicate_Ok_props in Hdedup as (_ & _ & _ & Hfirst).
  exists raw, news, rss. split_and!; try done.
  - rewrite Hfirst, length_take. lia.
  - apply filter_app.
Qed.

Lemma one_empty_url_in_keyword_part_sample :
  ∃ raw news rss,
    mapM (keyword_results sample_world) KEYWORDS = Ok raw ∧
    outcome (fetch_newsapi_articles sample_world) = Ok news ∧
    outcome (fetch_google_news_rss sample_world) = Ok rss ∧
    sample_all_articles = news ++ rss ∧
    filter empty_url news = take 1 (filter empty_url (concat raw)) ∧
    (length (filter empty_url news) ≤ 1)%nat ∧
    filter empty_url sample_all_articles
    = filter empty_url news ++ filter empty_url rss.
Proof.
  apply (one_empty_url_in_keyword_part sample_world sample_all_articles).
  vm_compute. reflexivity.
Defined.

(** C3: on every list whose records all have a hashable [url], the
    deduplication pass returns what the reference algorithm returns, that is
    the first occurrences of each URL, in input order and no longer than the
    input; of two records with link [a] the first is kept. *)
Theorem deduplicate_is_reference (url : value → hkey) (articles : list value) :
  Forall (λ a, url_key a = Ok (url a)) articles →
  deduplicate articles = Ok (dedup_reference url ∅ articles) ∧
  dedup_reference url ∅ articles = first_occurrences url articles ∧
  sublist (dedup_reference url ∅ articles) articles ∧
  (length (dedup_reference url ∅ articles) ≤ length articles)%nat ∧
  deduplicate [first_a; second_a] = Ok [first_a].
Proof.
  intros Hurl. split_and!.
  - unfold deduplicate. by rewrite (dedup_loop_reference url).
  - apply dedup_reference_first.
  - apply dedup_reference_sublist.
  - apply sublist_length, dedup_reference_sublist.
  - vm_compute. reflexivity.
Qed.

Lemma deduplicate_is_reference_sample :
  deduplicate [a1; a2; a1_again; a3; a4]
    = Ok (dedup_reference url_of ∅ [a1; a2; a1_again; a3; a4]) ∧
  dedup_reference url_of ∅ [a1; a2; a1_again; a3; a4]
    = first_occurrences url_of [a1; a2; a1_again; a3; a4] ∧
  sublist (dedup_reference url_of ∅ [a1; a2; a1_again; a3; a4])
          [a1; a2; a1_again; a3; a4] ∧
  (length (dedup_reference url_of ∅ [a1; a2; a1_again; a3; a4]) ≤ 5)%nat ∧
  deduplicate [first_a; second_a] = Ok [first_a].
Proof.
  apply (deduplicate_is_reference url_of [a1; a2; a1_again; a3; a4]).
  repeat constructor.
Defined.

(** C4: on a list whose first thirty records are dicts with a dict (or no)
    ["source"], the formatter returns the paragraphs of the first thirty
    records joined by a blank line; paragraph [k] (from zero) is the one of
    record [k] and starts with the number [k + 1]; forty records give thirty
    paragraphs. *)
Theorem format_renders_first_30 w articles :
  Forall formattable (take 30 articles) →
  ∃ lines,
    format_lines w articles = Ok lines ∧
    format_articles_for_prompt w articles
      = Ok (String.concat (nl +:+ nl) lines) ∧
    length lines = min 30 (length articles) ∧
    (∀ k a, (k < 30)%nat → articles !! k = Some a →
       ∃ rest,
         render_article w (S k) a = Ok (pretty (S k) +:+ ". [" +:+ rest) ∧
         lines !! k = Some (pretty (S k) +:+ ". [" +:+ rest)) ∧
    (length articles = 40 → length lines = 30).
Proof.
  intros Hfmt.
  destruct (format_loop_formattable w _ 1 [] Hfmt) as (lines & Hloop & Hlen & Hk).
  rewrite length_take in Hlen.
  exists lines. split_and!.
  - done.
  - unfold format_articles_for_prompt, format_lines. by rewrite Hloop.
  - done.
  - intros k a Hlt Ha.
    destruct (Hk k a) as (line & Hline & Hlook).
    { by rewrite lookup_take_lt. }
    rewrite Forall_forall in Hfmt.
    destruct (Hfmt a) as (d & -> & Hsrc).
    { apply list_elem_of_lookup. exists k. by rewrite lookup_take_lt. }
    simpl in Hline. rewrite render_article_dict in Hline by done.
    injection Hline as <-. rewrite render_article_dict by done. eauto.
  - intros H40. rewrite Hlen, H40. done.
Qed.

Lemma format_renders_first_30_sample :
  ∃ lines,
    format_lines sample_world forty = Ok lines ∧
    format_articles_for_prompt sample_world forty
      = Ok (String.concat (nl +:+ nl) lines) ∧
    length lines = min 30 (length forty) ∧
    (∀ k a, (k < 30)%nat → forty !! k = Some a →
       ∃ rest,
         render_article sample_world (S k) a
           = Ok (pretty (S k) +:+ ". [" +:+ rest) ∧
         lines !! k = Some (pretty (S k) +:+ ". [" +:+ rest)) ∧
    (length forty = 40 → length lines = 30).
Proof.
  apply (format_renders_first_30 sample_world forty).
  apply Forall_take, forty_formattable.
Defined.



(** C6: when both adapters return the empty list, [main] returns normally,
    its trace holds no call of the summarization or of the delivery service,
    and the last thing it does is print the abort message. *)
Theorem empty_run_aborts_cleanly w :
  outcome (fetch_newsapi_articles w) = Ok [] →
  outcome (fetch_google_news_rss w) = Ok [] →
  outcome (main w) = Ok () ∧
  Forall (λ e, ¬ collaborator_call e) (trace (main w)) ∧
  last (trace (main w)) = Some (EPrint "No articles found. Exiting.").
Proof.
  intros Hnews Hrss.
  assert (Hall : outcome (main_collect w) = Ok []).
  { by rewrite main_collect_outcome, Hnews, Hrss. }
  unfold main. rewrite outcome_bind, (trace_bind_Ok _ _ _ Hall), Hall.
  split_and!.
  - done.
  - apply Forall_app. split; [apply main_collect_trace|].
    repeat constructor. by intros [].
  - apply last_snoc.
Qed.

Lemma empty_run_aborts_cleanly_sample :
  outcome (main silent_world) = Ok () ∧
  Forall (λ e, ¬ collaborator_call e) (trace (main silent_world)) ∧
  last (trace (main silent_world)) = Some (EPrint "No articles found. Exiting.").
Proof.
  apply (empty_run_aborts_cleanly silent_world); vm_compute; reflexivity.
Defined.



(** C8: when the request for a keyword is answered with a status other than
    200, that keyword contributes no article and raises nothing; the adapter
    returns (or raises) what it does on the keyword list without that keyword,
    and when the other keywords' requests succeed it returns the deduplicated
    concatenation of their results, in keyword order. *)
Theorem failed_keyword_is_skipped w keyword r :
  http w "https://newsapi.org/v2/everything" (Some (newsapi_params w keyword))
    = Ok r →
  status_code r ≠ 200%Z →
  keyword_results w keyword = Ok [] ∧
  (∀ kws,
     outcome (fetch_newsapi_articles_of w kws)
     = outcome (fetch_newsapi_articles_of w (filter (λ k, k ≠ keyword) kws))) ∧
  (∀ pre post acc,
     outcome (newsapi_loop w (pre ++ keyword :: post) acc)
     = outcome (newsapi_loop w (pre ++ post) acc)) ∧
  (∀ pre post rs,
     mapM (keyword_results w) (pre ++ post) = Ok rs →
     outcome (fetch_newsapi_articles_of w (pre ++ keyword :: post))
     = deduplicate (concat rs)).
Proof.
  intros Hr Hstatus.
  assert (Hskip : keyword_results w keyword = Ok []).
  { unfold keyword_results. rewrite Hr. simpl. by rewrite decide_False. }
  split_and!.
  - done.
  - intros kws. rewrite !fetch_newsapi_articles_of_outcome.
    apply (mapM_skip_all _ deduplicate keyword Hskip kws []).
  - intros pre post acc. rewrite !newsapi_loop_outcome.
    apply (mapM_skip_one _ (λ l, Ok l) keyword Hskip pre post acc).
  - intros pre post rs Hrs. rewrite fetch_newsapi_articles_of_outcome.
    etrans; [exact (mapM_skip_one _ deduplicate keyword Hskip pre post [])|].
    by rewrite Hrs.
Qed.

Lemma failed_keyword_is_skipped_sample :
  keyword_results sample_world "SearchGPT" = Ok [] ∧
  (∀ kws,
     outcome (fetch_newsapi_articles_of sample_world kws)
     = outcome (fetch_newsapi_articles_of sample_world
                  (filter (λ k, k ≠ "SearchGPT") kws))) ∧
  (∀ pre post acc,
     outcome (newsapi_loop sample_world (pre ++ "SearchGPT" :: post) acc)
     = outcome (newsapi_loop sample_world (pre ++ post) acc)) ∧
  (∀ pre post rs,
     mapM (keyword_results sample_world) (pre ++ post) = Ok rs →
     outcome (fetch_newsapi_articles_of sample_world
                (pre ++ "SearchGPT" :: post))
     = deduplicate (concat rs)).
Proof.
  apply (failed_keyword_is_skipped sample_world "SearchGPT"
           (Response 500 not_json not_xml)).
  - vm_compute. reflexivity.
  - simpl. lia.
Defined.

(** C9: the feed adapter returns, for the queries in order, the records of
    the entries taken from each query's document: none when the status is not
    200, else its first five [item] descendants in document order. Every
    record has the source name [Google News] and an empty description. *)
Theorem feed_records_are_labelled_and_ordered w :
  outcome (fetch_google_news_rss w)
    = (feeds ← mapM (query_results w) queries; Ok (concat feeds)) ∧
  ∀ out,
    outcome (fetch_google_news_rss w) = Ok out →
    ∃ per_query : list (list element),
      Forall2 (query_items w) queries per_query ∧
      Forall (λ items, (length items ≤ 5)%nat) per_query ∧
      out = concat ((λ items : list element, rss_record <$> items) <$> per_query) ∧
      Forall google_record out.
Proof.
  split; [apply fetch_google_news_rss_of_outcome|].
  intros out. unfold fetch_google_news_rss.
  rewrite fetch_google_news_rss_of_outcome.
  destruct (mapM (query_results w) queries) as [feeds|] eqn:Hfeeds; [|done].
  simpl. intros [= <-].
  apply mapM_result_Forall2, query_results_per_query in Hfeeds
    as (per_query & Hitems & Hlen & ->).
  exists per_query. split_and!; try done.
  apply Forall_concat, Forall_fmap, Forall_forall. intros items _.
  apply Forall_fmap, Forall_forall. intros item _. apply rss_record_google.
Qed.

Lemma feed_records_are_labelled_and_ordered_sample :
  ∃ per_query : list (list element),
    Forall2 (query_items sample_world) queries per_query ∧
    Forall (λ items, (length items ≤ 5)%nat) per_query ∧
    drop 3 sample_all_articles = concat ((λ items : list element, rss_record <$> items) <$> per_query) ∧
    Forall google_record (drop 3 sample_all_articles).
Proof.
  apply (feed_records_are_labelled_and_ordered sample_world).
  vm_compute. reflexivity.
Defined.



(** * Further properties of the script *)

(** ** More on the reference algorithm *)

Section DedupReferenceMore.
Context {A K : Type} `{Countable K} (url : A → K).
Implicit Types (seen : gset K) (l : list A).

Lemma dedup_reference_NoDup_id seen l :
  NoDup (url <$> l) → (∀ r, r ∈ l → url r ∉ seen) →
  dedup_reference url seen l = l.
Proof.
  revert seen. induction l as [|r l IH]; intros seen Hnd Hseen; [done|].
  rewrite fmap_cons in Hnd. apply NoDup_cons in Hnd as [Hr Hnd].
  simpl. rewrite decide_False by (apply Hseen; left).
  f_equal. apply IH; [done|].
  intros x Hx. apply not_elem_of_union. split.
  - intros Heq%elem_of_singleton. apply Hr, list_elem_of_fmap. eauto.
  - apply Hseen. by right.
Qed.

Lemma dedup_reference_represents seen l r :
  r ∈ l → url r ∉ seen →
  ∃ r', r' ∈ dedup_reference url seen l ∧ url r' = url r.
Proof.
  revert seen. induction l as [|x l IH]; intros seen Hr Hseen.
  - by apply elem_of_nil in Hr.
  - simpl. apply elem_of_cons in Hr as [->|Hr].
    + rewrite decide_False by done. exists x. split; [left|done].
    + destruct (decide (url x ∈ seen)) as [Hx|Hx]; [by apply IH|].
      destruct (decide (url r = url x)) as [Heq|Hne].
      * exists x. split; [left|done].
      * destruct (IH ({[url x]} ∪ seen) Hr) as (r' & Hr' & Hu).
        { set_solver. }
        exists r'. split; [by right|done].
Qed.
End DedupReferenceMore.

Lemma filter_url_key_url_of l k :
  Forall (λ a, is_Ok (url_key a)) l →
  filter (λ a, url_key a = Ok k) l = filter (λ a, url_of a = k) l.
Proof.
  induction 1 as [|a l [k' Ha] _ IH]; [done|].
  rewrite !filter_cons, IH. unfold url_of. rewrite Ha.
  destruct (decide (Ok k' = Ok k)) as [Hk|Hk];
    destruct (decide (k' = k)) as [Hk'|Hk']; congruence.
Qed.

(** ** One iteration of each adapter loop *)

Lemma newsapi_loop_step_Ok w kw rest acc items :
  keyword_results w kw = Ok items →
  outcome (newsapi_loop w (kw :: rest) acc)
    = outcome (newsapi_loop w rest (acc ++ items)) ∧
  trace (newsapi_loop w (kw :: rest) acc)
    = newsapi_request w kw :: trace (newsapi_loop w rest (acc ++ items)).
Proof.
  unfold keyword_results, newsapi_request. cbn [newsapi_loop].
  rewrite outcome_bind, trace_bind. unfold requests_get. cbn [outcome trace].
  destruct (http w _ _) as [r|]; [|done]. cbn [mbind result_bind].
  case_decide.
  - rewrite !outcome_bind, !trace_bind. cbn [lift outcome trace].
    destruct (json r) as [data|]; [|done]. cbn [mbind result_bind].
    rewrite !outcome_bind, !trace_bind. cbn [lift outcome trace].
    destruct (get data "articles" (VList [])) as [found|]; [|done].
    cbn [mbind result_bind]. rewrite !outcome_bind, !trace_bind.
    cbn [lift outcome trace]. intros ->. done.
  - intros [= <-]. by rewrite app_nil_r.
Qed.

Lemma newsapi_loop_step_Raise w kw rest acc e :
  keyword_results w kw = Raise e →
  outcome (newsapi_loop w (kw :: rest) acc) = Raise e ∧
  trace (newsapi_loop w (kw :: rest) acc) = [newsapi_request w kw].
Proof.
  unfold keyword_results, newsapi_request. cbn [newsapi_loop].
  rewrite outcome_bind, trace_bind. unfold requests_get. cbn [outcome trace].
  destruct (http w _ _) as [r|]; [|by intros [= <-]]. cbn [mbind result_bind].
  case_decide; [|done].
  rewrite !outcome_bind, !trace_bind. cbn [lift outcome trace].
  destruct (json r) as [data|]; [|by intros [= <-]]. cbn [mbind result_bind].
  rewrite !outcome_bind, !trace_bind. cbn [lift outcome trace].
  destruct (get data "articles" (VList [])) as [found|]; [|by intros [= <-]].
  cbn [mbind result_bind]. rewrite !outcome_bind, !trace_bind.
  cbn [lift outcome trace]. by intros ->.
Qed.

Lemma newsapi_loop_trace_Ok w kws acc :
  Forall (λ k, is_Ok (keyword_results w k)) kws →
  trace (newsapi_loop w kws acc) = newsapi_request w <$> kws.
Proof.
  intros Hkws. revert acc.
  induction Hkws as [|kw kws [items Hkw] _ IH]; intros acc; [done|].
  destruct (newsapi_loop_step_Ok w kw kws acc items Hkw) as [_ ->].
  by rewrite IH.
Qed.

Lemma newsapi_loop_abort w pre kw post acc e :
  Forall (λ k, is_Ok (keyword_results w k)) pre →
  keyword_results w kw = Raise e →
  outcome (newsapi_loop w (pre ++ kw :: post) acc) = Raise e ∧
  trace (newsapi_loop w (pre ++ kw :: post) acc)
    = newsapi_request w <$> (pre ++ [kw]).
Proof.
  intros Hpre Hkw. revert acc.
  induction Hpre as [|k pre [items Hk] _ IH]; intros acc.
  - by apply newsapi_loop_step_Raise.
  - rewrite <-!app_comm_cons.
    destruct (newsapi_loop_step_Ok w k (pre ++ kw :: post) acc items Hk)
      as [-> ->].
    destruct (IH (acc ++ items)) as [-> ->]. done.
Qed.

Lemma rss_loop_step_Ok w q rest acc items :
  query_results w q = Ok items →
  outcome (rss_loop w (q :: rest) acc)
    = outcome (rss_loop w rest (acc ++ items)) ∧
  trace (rss_loop w (q :: rest) acc)
    = rss_request q :: trace (rss_loop w rest (acc ++ items)).
Proof.
  unfold query_results, rss_request. cbn [rss_loop].
  rewrite outcome_bind, trace_bind. unfold requests_get. cbn [outcome trace].
  destruct (http w _ _) as [r|]; [|done]. cbn [mbind result_bind].
  case_decide.
  - rewrite !outcome_bind, !trace_bind. cbn [lift outcome trace].
    destruct (xml r) as [root|]; [|done]. cbn [mbind result_bind].
    intros [= <-]. by rewrite rss_items_app.
  - intros [= <-]. by rewrite app_nil_r.
Qed.

Lemma rss_loop_step_Raise w q rest acc e :
  query_results w q = Raise e →
  outcome (rss_loop w (q :: rest) acc) = Raise e ∧
  trace (rss_loop w (q :: rest) acc) = [rss_request q].
Proof.
  unfold query_results, rss_request. cbn [rss_loop].
  rewrite outcome_bind, trace_bind. unfold requests_get. cbn [outcome trace].
  destruct (http w _ _) as [r|]; [|by intros [= <-]]. cbn [mbind result_bind].
  case_decide; [|done].
  rewrite !outcome_bind, !trace_bind. cbn [lift outcome trace].
  destruct (xml r) as [root|]; [|by intros [= <-]]. done.
Qed.

Lemma rss_loop_trace_Ok w qs acc :
  Forall (λ q, is_Ok (query_results w q)) qs →
  trace (rss_loop w qs acc) = rss_request <$> qs.
Proof.
  intros Hqs. revert acc.
  induction Hqs as [|q qs [items Hq] _ IH]; intros acc; [done|].
  destruct (rss_loop_step_Ok w q qs acc items Hq) as [_ ->].
  by rewrite IH.
Qed.

Lemma rss_loop_abort w pre q post acc e :
  Forall (λ q, is_Ok (query_results w q)) pre →
  query_results w q = Raise e →
  outcome (rss_loop w (pre ++ q :: post) acc) = Raise e ∧
  trace (rss_loop w (pre ++ q :: post) acc) = rss_request <$> (pre ++ [q]).
Proof.
  intros Hpre Hq. revert acc.
  induction Hpre as [|k pre [items Hk] _ IH]; intros acc.
  - by apply rss_loop_step_Raise.
  - rewrite <-!app_comm_cons.
    destruct (rss_loop_step_Ok w k (pre ++ q :: post) acc items Hk)
      as [-> ->].
    destruct (IH (acc ++ items)) as [-> ->]. done.
Qed.

Lemma mapM_result_is_Ok {A B} (f : A → result B) l :
  is_Ok (mapM f l) ↔ Forall (λ x, is_Ok (f x)) l.
Proof.
  split.
  - intros [k Hk%mapM_result_Forall2].
    induction Hk; constructor; [by eexists|done].
  - induction 1 as [|x l [y Hy] _ [k Hk]]; [by eexists|].
    simpl. rewrite Hy, Hk. by eexists.
Qed.

Lemma fetch_newsapi_articles_of_trace_eq w kws :
  trace (fetch_newsapi_articles_of w kws) = trace (newsapi_loop w kws []).
Proof.
  unfold fetch_newsapi_articles_of. rewrite trace_bind.
  destruct (outcome _); simpl; by rewrite app_nil_r.
Qed.

Lemma fetch_newsapi_articles_of_Ok_inv w kws articles :
  outcome (fetch_newsapi_articles_of w kws) = Ok articles →
  ∃ rs, mapM (keyword_results w) kws = Ok rs ∧
        deduplicate (concat rs) = Ok articles.
Proof.
  rewrite fetch_newsapi_articles_of_outcome.
  destruct (mapM (keyword_results w) kws) as [rs|]; [|done]. eauto.
Qed.

Lemma fetch_google_news_rss_of_Ok_inv w qs out :
  outcome (fetch_google_news_rss_of w qs) = Ok out →
  ∃ feeds, mapM (query_results w) qs = Ok feeds ∧ out = concat feeds.
Proof.
  rewrite fetch_google_news_rss_of_outcome.
  destruct (mapM (query_results w) qs) as [feeds|]; [|done].
  simpl. intros [= <-]. eauto.
Qed.

Lemma keyword_results_exception w kw e :
  http w "https://newsapi.org/v2/everything" (Some (newsapi_params w kw))
    = Raise e ∨
  (∃ r, http w "https://newsapi.org/v2/everything"
               (Some (newsapi_params w kw)) = Ok r ∧
        status_code r = 200%Z ∧ json r = Raise e) →
  keyword_results w kw = Raise e.
Proof.
  unfold keyword_results. intros [->|(r & -> & H200 & Hjson)]; [done|].
  simpl. rewrite decide_True by done. by rewrite Hjson.
Qed.

Lemma query_results_exception w q e :
  http w (rss_url q) None = Raise e ∨
  (∃ r, http w (rss_url q) None = Ok r ∧
        status_code r = 200%Z ∧ xml r = Raise e) →
  query_results w q = Raise e.
Proof.
  unfold query_results. intros [->|(r & -> & H200 & Hxml)]; [done|].
  simpl. rewrite decide_True by done. by rewrite Hxml.
Qed.

(** ** The formatter's exceptions *)




(** ** The driver *)

Lemma fetch_newsapi_articles_trace w news :
  outcome (fetch_newsapi_articles w) = Ok news →
  trace (fetch_newsapi_articles w) = newsapi_request w <$> KEYWORDS.
Proof.
  intros (rs & Hrs & _)%fetch_newsapi_articles_of_Ok_inv.
  unfold fetch_newsapi_articles. rewrite fetch_newsapi_articles_of_trace_eq.
  apply newsapi_loop_trace_Ok, mapM_result_is_Ok. by exists rs.
Qed.

Lemma fetch_google_news_rss_trace w rss :
  outcome (fetch_google_news_rss w) = Ok rss →
  trace (fetch_google_news_rss w) = rss_request <$> queries.
Proof.
  intros (feeds & Hfeeds & _)%fetch_google_news_rss_of_Ok_inv.
  apply rss_loop_trace_Ok, mapM_result_is_Ok. by exists feeds.
Qed.

Lemma main_collect_trace_Ok w news rss :
  outcome (fetch_newsapi_articles w) = Ok news →
  outcome (fetch_google_news_rss w) = Ok rss →
  trace (main_collect w)
  = [EPrint "Fetching articles from NewsAPI..."]
    ++ trace (fetch_newsapi_articles w)
    ++ [EPrint ("  Found " +:+ pretty (length news)
                +:+ " articles from NewsAPI");
        EPrint "Fetching articles from Google News RSS..."]
    ++ trace (fetch_google_news_rss w)
    ++ [EPrint ("  Found " +:+ pretty (length rss)
                +:+ " articles from Google News RSS")].
Proof.
  intros Hnews Hrss. unfold main_collect.
  rewrite trace_print_bind, (trace_bind_Ok _ _ _ Hnews).
  rewrite !trace_print_bind, (trace_bind_Ok _ _ _ Hrss).
  by rewrite trace_print_bind.
Qed.

Lemma generate_newsletter_run w articles text :
  format_articles_for_prompt w articles = Ok text →
  generate_newsletter w articles
  = mkIO [EMessagesCreate "claude-opus-4-5" 1500
            (prompt_text (today_prompt_now w) text)]
         (anthropic_text w "claude-opus-4-5" 1500
            (prompt_text (today_prompt_now w) text)).
Proof.
  intros Htext. unfold generate_newsletter, lift, mbind, IO_bind.
  cbn [outcome trace]. by rewrite Htext.
Qed.

Lemma generate_newsletter_format_raises w articles e :
  format_articles_for_prompt w articles = Raise e →
  generate_newsletter w articles = mkIO [] (Raise e).
Proof.
  intros Htext. unfold generate_newsletter, lift, mbind, IO_bind.
  cbn [outcome trace]. by rewrite Htext.
Qed.

Lemma send_email_run w html :
  send_email w html
  = match sendgrid_status w (newsletter_mail w html) with
    | Ok status =>
        mkIO [ESendGridSend (newsletter_mail w html);
              EPrint ("Email sent. Status code: " +:+ pretty status)] (Ok ())
    | Raise e => mkIO [ESendGridSend (newsletter_mail w html)] (Raise e)
    end.
Proof.
  unfold send_email, mbind, IO_bind. cbn [outcome trace].
  fold (newsletter_mail w html).
  by destruct (sendgrid_status w (newsletter_mail w html)).
Qed.

Lemma main_deliver_run w all text :
  all ≠ [] →
  format_articles_for_prompt w all = Ok text →
  main_deliver w all
  = match anthropic_text w "claude-opus-4-5" 1500
            (prompt_text (today_prompt_now w) text) with
    | Ok html =>
        match sendgrid_status w (newsletter_mail w html) with
        | Ok status =>
            mkIO [EPrint ("Generating newsletter from "
                          +:+ pretty (length all) +:+ " total articles...");
                  EMessagesCreate "claude-opus-4-5" 1500
                    (prompt_text (today_prompt_now w) text);
                  EPrint "Sending email...";
                  ESendGridSend (newsletter_mail w html);
                  EPrint ("Email sent. Status code: " +:+ pretty status);
                  EPrint "Done!"] (Ok ())
        | Raise e =>
            mkIO [EPrint ("Generating newsletter from "
                          +:+ pretty (length all) +:+ " total articles...");
                  EMessagesCreate "claude-opus-4-5" 1500
                    (prompt_text (today_prompt_now w) text);
                  EPrint "Sending email...";
                  ESendGridSend (newsletter_mail w html)] (Raise e)
        end
    | Raise e =>
        mkIO [EPrint ("Generating newsletter from "
                      +:+ pretty (length all) +:+ " total articles...");
              EMessagesCreate "claude-opus-4-5" 1500
                (prompt_text (today_prompt_now w) text)] (Raise e)
    end.
Proof.
  intros Hne Htext. destruct all as [|a l]; [done|].
  unfold main_deliver. rewrite (generate_newsletter_run w _ text Htext).
  unfold mbind, IO_bind. cbn [outcome trace print].
  destruct (anthropic_text w _ _ _) as [html|e]; [|done].
  cbn [outcome trace]. rewrite send_email_run.
  by destruct (sendgrid_status w (newsletter_mail w html)).
Qed.

Lemma main_deliver_format_raises w all e :
  all ≠ [] →
  format_articles_for_prompt w all = Raise e →
  main_deliver w all
  = mkIO [EPrint ("Generating newsletter from "
                  +:+ pretty (length all) +:+ " total articles...")]
         (Raise e).
Proof.
  intros Hne Htext. destruct all as [|a l]; [done|].
  unfold main_deliver. by rewrite (generate_newsletter_format_raises w _ e Htext).
Qed.

Lemma main_run w all :
  outcome (main_collect w) = Ok all →
  outcome (main w) = outcome (main_deliver w all) ∧
  trace (main w) = trace (main_collect w) ++ trace (main_deliver w all).
Proof.
  intros Hall. unfold main.
  by rewrite outcome_bind, Hall, (trace_bind_Ok _ _ _ Hall).
Qed.

Lemma main_collect_outcome_Ok w news rss :
  outcome (fetch_newsapi_articles w) = Ok news →
  outcome (fetch_google_news_rss w) = Ok rss →
  outcome (main_collect w) = Ok (news ++ rss).
Proof. intros Hn Hr. by rewrite main_collect_outcome, Hn, Hr. Qed.

(** ** Deduplication *)

(** X1: a list whose records have pairwise distinct URL keys is returned
    unchanged, and deduplicating a second time changes nothing. *)
Theorem deduplicate_keeps_duplicate_free_lists (articles : list value) :
  (Forall (λ a, is_Ok (url_key a)) articles →
   NoDup (url_of <$> articles) →
   deduplicate articles = Ok articles) ∧
  (∀ unique, deduplicate articles = Ok unique →
             deduplicate unique = Ok unique).
Proof.
  assert (Hid : ∀ l, Forall (λ a, is_Ok (url_key a)) l →
                     NoDup (url_of <$> l) → deduplicate l = Ok l).
  { intros l Hok Hnd. unfold deduplicate.
    rewrite (dedup_loop_reference url_of).
    - simpl. f_equal. apply dedup_reference_NoDup_id; [done|set_solver].
    - eapply Forall_impl; [done|]. apply url_key_url_of. }
  split; [apply Hid|].
  intros unique (Hok & _ & Hnd & _)%deduplicate_Ok_props. by apply Hid.
Qed.

Lemma deduplicate_keeps_duplicate_free_lists_sample :
  deduplicate [a1; a2; a3] = Ok [a1; a2; a3] ∧
  (deduplicate [a1; a2; a1_again; a3; a4] = Ok [a1; a2; a3] →
   deduplicate [a1; a2; a3] = Ok [a1; a2; a3]).
Proof.
  split.
  - apply (proj1 (deduplicate_keeps_duplicate_free_lists [a1; a2; a3])).
    + repeat (constructor; [eexists; vm_compute; reflexivity|]). constructor.
    + vm_compute. repeat (constructor; [set_solver|]). constructor.
  - apply (proj2 (deduplicate_keeps_duplicate_free_lists
                    [a1; a2; a1_again; a3; a4])).
Defined.

(** X2: for every URL key, the records kept with that key are exactly the
    first record of the input with that key (so also among the records whose
    [url] is [None]), and every record of the input has its key represented
    in the output. *)
Theorem deduplicate_keeps_first_of_each_url (articles unique : list value) :
  deduplicate articles = Ok unique →
  (∀ k, filter (λ a, url_key a = Ok k) unique
        = take 1 (filter (λ a, url_key a = Ok k) articles)) ∧
  (∀ a, a ∈ articles → ∃ b, b ∈ unique ∧ url_key b = url_key a).
Proof.
  intros Hout. pose proof (dedup_loop_Ok_inv _ _ _ _ Hout) as Hl.
  pose proof (deduplicate_Ok_props _ _ Hout) as (Hok & _ & _ & _).
  apply deduplicate_reference in Hout as [Hurl ->].
  split.
  - intros k. rewrite !filter_url_key_url_of by done.
    by rewrite dedup_reference_filter_key.
  - intros a Ha.
    destruct (dedup_reference_represents url_of ∅ articles a Ha)
      as (b & Hb & Hu); [set_solver|].
    exists b. split; [done|].
    rewrite Forall_forall in Hurl, Hok.
    rewrite (Hurl a Ha). rewrite (url_key_url_of b (Hok b Hb)). by rewrite Hu.
Qed.

Lemma deduplicate_keeps_first_of_each_url_sample :
  (∀ k, filter (λ a, url_key a = Ok k) [a1; a2; a3]
        = take 1 (filter (λ a, url_key a = Ok k)
                         [a1; a2; a1_again; a3; a4])) ∧
  (∀ a, a ∈ [a1; a2; a1_again; a3; a4] →
        ∃ b, b ∈ [a1; a2; a3] ∧ url_key b = url_key a).
Proof.
  apply (deduplicate_keeps_first_of_each_url
           [a1; a2; a1_again; a3; a4] [a1; a2; a3]).
  vm_compute. reflexivity.
Defined.

(** ** The keyword adapter *)

(** X3: when the keyword adapter returns, it has made exactly one request
    per keyword, in keyword order, whatever the status of each response. *)
Theorem keyword_adapter_requests_each_keyword_once w kws articles :
  outcome (fetch_newsapi_articles_of w kws) = Ok articles →
  trace (fetch_newsapi_articles_of w kws) = newsapi_request w <$> kws.
Proof.
  intros (rs & Hrs & _)%fetch_newsapi_articles_of_Ok_inv.
  rewrite fetch_newsapi_articles_of_trace_eq.
  apply newsapi_loop_trace_Ok, mapM_result_is_Ok. by exists rs.
Qed.

Lemma keyword_adapter_requests_each_keyword_once_sample :
  trace (fetch_newsapi_articles_of sample_world KEYWORDS)
  = newsapi_request sample_world <$> KEYWORDS.
Proof.
  apply (keyword_adapter_requests_each_keyword_once
           sample_world KEYWORDS [a1; a2; a3]).
  vm_compute. reflexivity.
Defined.

(** X4: an exception raised by a request, or by decoding the body of a 200
    response, is not caught: the adapter raises it, and the keywords after
    the failing one are never requested. *)
Theorem keyword_adapter_aborts_on_exception w pre kw post e :
  Forall (λ k, is_Ok (keyword_results w k)) pre →
  http w "https://newsapi.org/v2/everything" (Some (newsapi_params w kw))
    = Raise e ∨
  (∃ r, http w "https://newsapi.org/v2/everything"
               (Some (newsapi_params w kw)) = Ok r ∧
        status_code r = 200%Z ∧ json r = Raise e) →
  outcome (fetch_newsapi_articles_of w (pre ++ kw :: post)) = Raise e ∧
  trace (fetch_newsapi_articles_of w (pre ++ kw :: post))
    = newsapi_request w <$> (pre ++ [kw]).
Proof.
  intros Hpre Hkw%keyword_results_exception.
  destruct (newsapi_loop_abort w pre kw post [] e Hpre Hkw) as [Hout Htr].
  rewrite fetch_newsapi_articles_of_trace_eq. split; [|done].
  unfold fetch_newsapi_articles_of. by rewrite outcome_bind, Hout.
Qed.

Lemma keyword_adapter_aborts_on_exception_sample :
  outcome (fetch_newsapi_articles offline_world) = Raise connection_error ∧
  trace (fetch_newsapi_articles offline_world)
    = newsapi_request offline_world
        <$> ["AI search"; "AI search engine"; "Google AI Overviews"].
Proof.
  apply (keyword_adapter_aborts_on_exception offline_world
           ["AI search"; "AI search engine"] "Google AI Overviews"
           (drop 3 KEYWORDS) connection_error).
  - repeat (constructor; [eexists; vm_compute; reflexivity|]). constructor.
  - left. vm_compute. reflexivity.
Defined.

(** X5: a 200 response whose JSON object has no ["articles"] key
    contributes nothing and raises nothing: the adapter behaves as on the
    keyword list without that keyword. *)
Theorem response_without_articles_key_is_skipped w kw r d :
  http w "https://newsapi.org/v2/everything" (Some (newsapi_params w kw))
    = Ok r →
  status_code r = 200%Z →
  json r = Ok (VDict d) →
  lookup_key "articles" d = None →
  keyword_results w kw = Ok [] ∧
  ∀ kws, outcome (fetch_newsapi_articles_of w kws)
         = outcome (fetch_newsapi_articles_of w (filter (λ k, k ≠ kw) kws)).
Proof.
  intros Hr H200 Hjson Hd.
  assert (Hskip : keyword_results w kw = Ok []).
  { unfold keyword_results. rewrite Hr. simpl. rewrite decide_True by done.
    rewrite Hjson. simpl. by rewrite Hd. }
  split; [done|]. intros kws.
  rewrite !fetch_newsapi_articles_of_outcome.
  apply (mapM_skip_all _ deduplicate kw Hskip kws []).
Qed.

Lemma response_without_articles_key_is_skipped_sample :
  keyword_results no_articles_key_world "Perplexity AI" = Ok [] ∧
  ∀ kws, outcome (fetch_newsapi_articles_of no_articles_key_world kws)
         = outcome (fetch_newsapi_articles_of no_articles_key_world
                      (filter (λ k, k ≠ "Perplexity AI") kws)).
Proof.
  apply (response_without_articles_key_is_skipped no_articles_key_world
           "Perplexity AI" (Response 200 (Ok (VDict error_body)) not_xml)
           error_body); vm_compute; reflexivity.
Defined.

(** X6: a 200 response whose ["articles"] is [None], a bool or an int makes
    the adapter raise [TypeError]. *)
Theorem non_iterable_article_list_raises w pre kw post r d v :
  Forall (λ k, is_Ok (keyword_results w k)) pre →
  http w "https://newsapi.org/v2/everything" (Some (newsapi_params w kw))
    = Ok r →
  status_code r = 200%Z →
  json r = Ok (VDict d) →
  lookup_key "articles" d = Some v →
  v = VNone ∨ (∃ b, v = VBool b) ∨ (∃ z, v = VInt z) →
  outcome (fetch_newsapi_articles_of w (pre ++ kw :: post)) = Raise TypeError.
Proof.
  intros Hpre Hr H200 Hjson Hd Hv.
  assert (Hkw : keyword_results w kw = Raise TypeError).
  { unfold keyword_results. rewrite Hr. simpl. rewrite decide_True by done.
    rewrite Hjson. simpl. rewrite Hd. simpl.
    by destruct Hv as [->|[[b ->]|[z ->]]]. }
  destruct (newsapi_loop_abort w pre kw post [] _ Hpre Hkw) as [Hout _].
  unfold fetch_newsapi_articles_of. by rewrite outcome_bind, Hout.
Qed.

Lemma non_iterable_article_list_raises_sample :
  outcome (fetch_newsapi_articles null_articles_world) = Raise TypeError.
Proof.
  apply (non_iterable_article_list_raises null_articles_world
           (take 4 KEYWORDS) "Perplexity AI" (drop 5 KEYWORDS)
           (Response 200 (Ok (VDict null_articles_body)) not_xml)
           null_articles_body VNone).
  - repeat (constructor; [eexists; vm_compute; reflexivity|]). constructor.
  - vm_compute. reflexivity.
  - reflexivity.
  - reflexivity.
  - reflexivity.
  - by left.
Defined.

(** ** The feed adapter *)

(** X7: an exception raised by a feed request, or by parsing the document of
    a 200 response, is not caught: the feed adapter raises it and requests no
    later query. *)
Theorem feed_adapter_aborts_on_exception w pre q post e :
  Forall (λ q, is_Ok (query_results w q)) pre →
  http w (rss_url q) None = Raise e ∨
  (∃ r, http w (rss_url q) None = Ok r ∧
        status_code r = 200%Z ∧ xml r = Raise e) →
  outcome (fetch_google_news_rss_of w (pre ++ q :: post)) = Raise e ∧
  trace (fetch_google_news_rss_of w (pre ++ q :: post))
    = rss_request <$> (pre ++ [q]).
Proof.
  intros Hpre Hq%query_results_exception.
  by apply rss_loop_abort.
Qed.

Lemma feed_adapter_aborts_on_exception_sample :
  outcome (fetch_google_news_rss broken_feed_world)
    = Raise (ExternalError "ParseError") ∧
  trace (fetch_google_news_rss broken_feed_world)
    = rss_request <$> ["AI+search+trends"; "AI+search+engine"].
Proof.
  apply (feed_adapter_aborts_on_exception broken_feed_world
           ["AI+search+trends"] "AI+search+engine"
           ["Google+AI+Overviews+SEO"] (ExternalError "ParseError")).
  - repeat (constructor; [eexists; vm_compute; reflexivity|]). constructor.
  - right. eexists. split; [vm_compute; reflexivity|]. by split.
Defined.

(** X8: when the feed adapter returns, it has made exactly one request per
    query, in query order, and it returns at most five records per query. *)
Theorem feed_adapter_requests_each_query_once w qs out :
  outcome (fetch_google_news_rss_of w qs) = Ok out →
  trace (fetch_google_news_rss_of w qs) = rss_request <$> qs ∧
  (length out ≤ 5 * length qs)%nat.
Proof.
  intros (feeds & Hfeeds & ->)%fetch_google_news_rss_of_Ok_inv. split.
  - apply rss_loop_trace_Ok, mapM_result_is_Ok. by exists feeds.
  - apply mapM_result_Forall2 in Hfeeds.
    induction Hfeeds as [|q rs qs feeds Hq _ IH]; [done|].
    apply query_results_Ok_inv in Hq as (items & _ & Hlen & ->).
    simpl. rewrite length_app, length_fmap. lia.
Qed.

Lemma feed_adapter_requests_each_query_once_sample :
  trace (fetch_google_news_rss sample_world) = rss_request <$> queries ∧
  (length (drop 3 sample_all_articles) ≤ 5 * length queries)%nat.
Proof.
  apply (feed_adapter_requests_each_query_once sample_world queries
           (drop 3 sample_all_articles)).
  vm_compute. reflexivity.
Defined.

(** X9: every record the feed adapter returns is a dict with a dict
    ["source"] and a string ["url"], so neither the formatter nor the
    deduplication pass raises on the feed adapter's output. *)
Theorem feed_records_are_well_typed w qs out :
  outcome (fetch_google_news_rss_of w qs) = Ok out →
  Forall formattable out ∧
  Forall (λ a, ∃ link, url_key a = Ok (HStr link)) out ∧
  (∃ text, format_articles_for_prompt w out = Ok text) ∧
  (∃ unique, deduplicate out = Ok unique).
Proof.
  intros (feeds & Hfeeds & ->)%fetch_google_news_rss_of_Ok_inv.
  assert (Hrec : Forall (λ a, ∃ item, a = rss_record item) (concat feeds)).
  { apply mapM_result_Forall2 in Hfeeds. apply Forall_concat.
    induction Hfeeds as [|q rs qs feeds Hq _ IH]; constructor; [|done].
    apply query_results_Ok_inv in Hq as (items & _ & _ & ->).
    apply Forall_forall. intros a (item & -> & _)%list_elem_of_fmap.
    by exists item. }
  assert (Hfmt : Forall formattable (concat feeds)).
  { eapply Forall_impl; [exact Hrec|]. intros a [item ->].
    eexists. split; [done|]. right. by eexists. }
  assert (Hurl : Forall (λ a, ∃ link, url_key a = Ok (HStr link))
                        (concat feeds)).
  { eapply Forall_impl; [exact Hrec|]. intros a [item ->]. by eexists. }
  split_and!; [done|done| |].
  - destruct (format_loop_formattable w (take 30 (concat feeds)) 1 [])
      as (lines & Hloop & _); [by apply Forall_take|].
    eexists. unfold format_articles_for_prompt, format_lines.
    by rewrite Hloop.
  - eexists. unfold deduplicate. rewrite (dedup_loop_reference url_of); [done|].
    eapply Forall_impl; [exact Hurl|]. intros a [link Ha].
    apply url_key_url_of. by eexists.
Qed.

Lemma feed_records_are_well_typed_sample :
  Forall formattable (drop 3 sample_all_articles) ∧
  Forall (λ a, ∃ link, url_key a = Ok (HStr link))
         (drop 3 sample_all_articles) ∧
  (∃ text, format_articles_for_prompt sample_world
             (drop 3 sample_all_articles) = Ok text) ∧
  (∃ unique, deduplicate (drop 3 sample_all_articles) = Ok unique).
Proof.
  apply (feed_records_are_well_typed sample_world queries).
  vm_compute. reflexivity.
Defined.

(** ** The formatter *)



(** ** The driver *)

(** X11: when both adapters return and at least one record was found, the
    formatter, the model and the mail service return, [main] returns
    normally and does, in this order: the eight keyword requests, the three
    feed requests, one model call whose prompt holds the formatted text of
    all records, one mail whose body wraps the model's text, with the
    progress lines in between; the delivery status is printed, whatever it
    is, and not acted on. *)
Theorem successful_run_trace w news rss text html status :
  outcome (fetch_newsapi_articles w) = Ok news →
  outcome (fetch_google_news_rss w) = Ok rss →
  news ++ rss ≠ [] →
  format_articles_for_prompt w (news ++ rss) = Ok text →
  anthropic_text w "claude-opus-4-5" 1500
    (prompt_text (today_prompt_now w) text) = Ok html →
  sendgrid_status w (newsletter_mail w html) = Ok status →
  outcome (main w) = Ok () ∧
  trace (main w)
  = [EPrint "Fetching articles from NewsAPI..."]
    ++ (newsapi_request w <$> KEYWORDS)
    ++ [EPrint ("  Found " +:+ pretty (length news)
                +:+ " articles from NewsAPI");
        EPrint "Fetching articles from Google News RSS..."]
    ++ (rss_request <$> queries)
    ++ [EPrint ("  Found " +:+ pretty (length rss)
                +:+ " articles from Google News RSS");
        EPrint ("Generating newsletter from "
                +:+ pretty (length (news ++ rss)) +:+ " total articles...");
        EMessagesCreate "claude-opus-4-5" 1500
          (prompt_text (today_prompt_now w) text);
        EPrint "Sending email...";
        ESendGridSend (newsletter_mail w html);
        EPrint ("Email sent. Status code: " +:+ pretty status);
        EPrint "Done!"].
Proof.
  intros Hnews Hrss Hne Htext Hhtml Hstatus.
  destruct (main_run w _ (main_collect_outcome_Ok w _ _ Hnews Hrss))
    as [-> ->].
  rewrite (main_deliver_run w _ text Hne Htext), Hhtml, Hstatus.
  split; [done|].
  rewrite (main_collect_trace_Ok w news rss Hnews Hrss).
  rewrite (fetch_newsapi_articles_trace w news Hnews).
  rewrite (fetch_google_news_rss_trace w rss Hrss).
  cbn [trace]. by rewrite <-!(assoc_L (++)).
Qed.

Lemma successful_run_trace_sample :
  ∃ text,
    format_articles_for_prompt sample_world sample_all_articles = Ok text ∧
    outcome (main sample_world) = Ok () ∧
    trace (main sample_world)
    = [EPrint "Fetching articles from NewsAPI..."]
      ++ (newsapi_request sample_world <$> KEYWORDS)
      ++ [EPrint "  Found 3 articles from NewsAPI";
          EPrint "Fetching articles from Google News RSS..."]
      ++ (rss_request <$> queries)
      ++ [EPrint "  Found 6 articles from Google News RSS";
          EPrint "Generating newsletter from 9 total articles...";
          EMessagesCreate "claude-opus-4-5" 1500
            (prompt_text "January 08, 2026" text);
          EPrint "Sending email...";
          ESendGridSend
            (newsletter_mail sample_world "<h2>AI Search Weekly</h2>");
          EPrint "Email sent. Status code: 202";
          EPrint "Done!"].
Proof.
  eexists. split; [vm_compute; reflexivity|].
  apply (successful_run_trace sample_world [a1; a2; a3]
           (drop 3 sample_all_articles) _ "<h2>AI Search Weekly</h2>" 202).
  - vm_compute. reflexivity.
  - vm_compute. reflexivity.
  - done.
  - vm_compute. reflexivity.
  - reflexivity.
  - reflexivity.
Defined.

(** X12: an exception raised by an adapter ends the run: [main] raises it
    without calling the model or the mail service; when the keyword adapter
    is the one that raises, the feed adapter is not run at all. *)
Theorem adapter_exception_ends_run w e :
  outcome (main_collect w) = Raise e →
  outcome (main w) = Raise e ∧
  trace (main w) = trace (main_collect w) ∧
  Forall (λ ev, ¬ collaborator_call ev) (trace (main w)) ∧
  (outcome (fetch_newsapi_articles w) = Raise e →
   trace (main w)
   = EPrint "Fetching articles from NewsAPI..."
     :: trace (fetch_newsapi_articles w)).
Proof.
  intros Hall. unfold main.
  rewrite outcome_bind, (trace_bind_Raise _ _ _ Hall), Hall.
  split_and!; [done|done|apply main_collect_trace|].
  intros Hnews. unfold main_collect.
  by rewrite trace_print_bind, (trace_bind_Raise _ _ _ Hnews).
Qed.

Lemma adapter_exception_ends_run_sample :
  outcome (main offline_world) = Raise connection_error ∧
  trace (main offline_world) = trace (main_collect offline_world) ∧
  Forall (λ ev, ¬ collaborator_call ev) (trace (main offline_world)) ∧
  trace (main offline_world)
  = EPrint "Fetching articles from NewsAPI..."
    :: (newsapi_request offline_world
          <$> ["AI search"; "AI search engine"; "Google AI Overviews"]).
Proof.
  destruct (adapter_exception_ends_run offline_world connection_error)
    as (Hout & Htr & Hno & Hnews); [vm_compute; reflexivity|].
  split_and!; [done|done|done|].
  rewrite Hnews; [|vm_compute; reflexivity]. vm_compute. reflexivity.
Defined.

(** X13: when the formatter raises on the collected records, [main] raises
    the same exception right after announcing the generation: neither the
    model nor the mail service is called. *)
Theorem formatter_exception_ends_run w all e :
  outcome (main_collect w) = Ok all →
  all ≠ [] →
  format_articles_for_prompt w all = Raise e →
  outcome (main w) = Raise e ∧
  Forall (λ ev, ¬ collaborator_call ev) (trace (main w)) ∧
  last (trace (main w))
  = Some (EPrint ("Generating newsletter from "
                  +:+ pretty (length all) +:+ " total articles...")).
Proof.
  intros Hall Hne Htext. destruct (main_run w all Hall) as [-> ->].
  rewrite (main_deliver_format_raises w all e Hne Htext).
  split_and!; [done| |].
  - apply Forall_app. split; [apply main_collect_trace|].
    repeat constructor. by intros [].
  - cbn [trace]. apply last_snoc.
Qed.

Lemma formatter_exception_ends_run_sample :
  outcome (main null_source_world) = Raise AttributeError ∧
  Forall (λ ev, ¬ collaborator_call ev) (trace (main null_source_world)) ∧
  last (trace (main null_source_world))
  = Some (EPrint "Generating newsletter from 10 total articles...").
Proof.
  apply (formatter_exception_ends_run null_source_world
           ([a1; a2; a3; sourceless] ++ drop 3 sample_all_articles)
           AttributeError).
  - vm_compute. reflexivity.
  - done.
  - vm_compute. reflexivity.
Defined.

(** X14: when the model call raises, [main] raises the same exception and
    no mail is sent: the model call is the last thing the run does. *)
Theorem model_exception_prevents_delivery w all text e :
  outcome (main_collect w) = Ok all →
  all ≠ [] →
  format_articles_for_prompt w all = Ok text →
  anthropic_text w "claude-opus-4-5" 1500
    (prompt_text (today_prompt_now w) text) = Raise e →
  outcome (main w) = Raise e ∧
  Forall (λ ev, ¬ is_delivery ev) (trace (main w)) ∧
  last (trace (main w))
  = Some (EMessagesCreate "claude-opus-4-5" 1500
            (prompt_text (today_prompt_now w) text)).
Proof.
  intros Hall Hne Htext Hmodel. destruct (main_run w all Hall) as [-> ->].
  rewrite (main_deliver_run w all text Hne Htext), Hmodel.
  split_and!; [done| |].
  - apply Forall_app. split.
    + eapply Forall_impl; [apply main_collect_trace|].
      intros [] ? ?; done.
    + repeat constructor; by intros [].
  - cbn [trace]. by rewrite last_app_cons.
Qed.

Lemma model_exception_prevents_delivery_sample :
  ∃ text,
    format_articles_for_prompt model_down_world sample_all_articles
      = Ok text ∧
    outcome (main model_down_world) = Raise (ExternalError "APIError") ∧
    Forall (λ ev, ¬ is_delivery ev) (trace (main model_down_world)) ∧
    last (trace (main model_down_world))
    = Some (EMessagesCreate "claude-opus-4-5" 1500
              (prompt_text "January 08, 2026" text)).
Proof.
  eexists. split; [vm_compute; reflexivity|].
  apply (model_exception_prevents_delivery model_down_world
           sample_all_articles _ (ExternalError "APIError")).
  - vm_compute. reflexivity.
  - done.
  - vm_compute. reflexivity.
  - reflexivity.
Defined.

(** X15: when the mail service raises, [main] raises the same exception
    after the model was called: the send call is the last thing the run
    does, so no status and no final line are printed. *)
Theorem delivery_exception_ends_run w all text html e :
  outcome (main_collect w) = Ok all →
  all ≠ [] →
  format_articles_for_prompt w all = Ok text →
  anthropic_text w "claude-opus-4-5" 1500
    (prompt_text (today_prompt_now w) text) = Ok html →
  sendgrid_status w (newsletter_mail w html) = Raise e →
  outcome (main w) = Raise e ∧
  last (trace (main w)) = Some (ESendGridSend (newsletter_mail w html)).
Proof.
  intros Hall Hne Htext Hhtml Hsend.
  destruct (main_run w all Hall) as [-> ->].
  rewrite (main_deliver_run w all text Hne Htext), Hhtml, Hsend.
  split; [done|]. cbn [trace]. by rewrite !last_app_cons.
Qed.

Lemma delivery_exception_ends_run_sample :
  outcome (main mailer_down_world) = Raise (ExternalError "HTTPError") ∧
  last (trace (main mailer_down_world))
  = Some (ESendGridSend
            (newsletter_mail mailer_down_world "<h2>AI Search Weekly</h2>")).
Proof.
  eapply (delivery_exception_ends_run mailer_down_world
            sample_all_articles _ "<h2>AI Search Weekly</h2>"
            (ExternalError "HTTPError")).
  - vm_compute. reflexivity.
  - done.
  - vm_compute. reflexivity.
  - reflexivity.
  - reflexivity.
Defined.
